(** * Local Hybrid Reranker: a shallow embedding of [LocalReranker.node.js]

    The development follows [execute] of the node top to bottom: parameter
    defaulting, input validation, the tokenizer, the corpus-wide document
    frequencies, the per-batch scoring passes, the BM25 normalizers, the
    score fusion and the final sort and slice.

    Modelling conventions.
    - JavaScript numbers are real numbers ([R]): rounding, [NaN] and the
      infinities are outside the model.  Parameters that count things
      ([topN], [batchSize], [minTokenLength]) are integers ([Z]).
    - Texts are ASCII strings: on them [toLowerCase] is ASCII lower-casing,
      [normalize("NFC")] is the identity and the class [\p{L}\p{N}] is
      [A-Za-z0-9].
    - Objects used as maps ([globalDF], [tfMap]) are finite maps from tokens
      to counts, sets are finite sets.  A plain object also answers for the
      properties it inherits from [Object.prototype]; the only one a token
      can spell is "constructor", and reading it makes every BM25 score
      [NaN].  The maps agree with the code on every other key, and the
      statements about scores are made for queries without that token
      ([no_inherited_key]).
    - [throw] is the [Throw] outcome of a small exception monad, caught at
      the boundary by [execute]; the batch loop runs on fuel, and running
      out of fuel ([None]) stands for a loop that has not finished.
    - The two readings of the environment are explicit arguments: the clock
      ([Date.now()]) and the conversion of a string to a number
      ([Number(s)], [None] for [NaN]). *)

From Stdlib Require Import Reals Lra Lia ZArith List Ascii String Sorted Permutation.
From stdpp Require Import gmap strings list.

Local Open Scope string_scope.

(** ** Strings *)

Module Str.

Definition is_upper (c : ascii) : bool :=
  let n := nat_of_ascii c in (65 <=? n)%nat && (n <=? 90)%nat.

Definition is_lower (c : ascii) : bool :=
  let n := nat_of_ascii c in (97 <=? n)%nat && (n <=? 122)%nat.

Definition is_digit (c : ascii) : bool :=
  let n := nat_of_ascii c in (48 <=? n)%nat && (n <=? 57)%nat.

(** [\s] on ASCII: tab, line feed, vertical tab, form feed, carriage return,
    space. *)
Definition is_space (c : ascii) : bool :=
  let n := nat_of_ascii c in ((9 <=? n)%nat && (n <=? 13)%nat) || (n =? 32)%nat.

(** [[\p{L}\p{N}]] on ASCII. *)
Definition is_letter_or_number (c : ascii) : bool :=
  is_upper c || is_lower c || is_digit c.

Definition lower_char (c : ascii) : ascii :=
  if is_upper c then ascii_of_nat (nat_of_ascii c + 32) else c.

Fixpoint toLowerCase (s : string) : string :=
  match s with
  | EmptyString => EmptyString
  | String c s' => String (lower_char c) (toLowerCase s')
  end.

Definition normalizeNFC (s : string) : string := s.

Fixpoint trimStart (s : string) : string :=
  match s with
  | EmptyString => EmptyString
  | String c s' => if is_space c then trimStart s' else s
  end.

Fixpoint trimEnd (s : string) : string :=
  match s with
  | EmptyString => EmptyString
  | String c s' =>
      match trimEnd s' with
      | EmptyString => if is_space c then EmptyString else String c EmptyString
      | r => String c r
      end
  end.

Definition trim (s : string) : string := trimEnd (trimStart s).

(** [s.replace(/[^\p{L}\p{N}]+/gu, " ")]: every maximal run of characters
    outside the class becomes one space.  [in_run] tells that the previous
    character already belonged to the run being replaced. *)
Fixpoint replace_runs (in_run : bool) (s : string) : string :=
  match s with
  | EmptyString => EmptyString
  | String c s' =>
      if is_letter_or_number c then String c (replace_runs false s')
      else if in_run then replace_runs true s'
      else String " "%char (replace_runs true s')
  end.

Definition replaceNonAlnum (s : string) : string := replace_runs false s.

(** [s.split(/\s+/)]: the pieces between the maximal runs of white space;
    a run at either end leaves an empty piece there, and the empty string
    splits into one empty piece. *)
Fixpoint split_runs (in_run : bool) (cur : string) (s : string) : list string :=
  match s with
  | EmptyString => [cur]
  | String c s' =>
      if is_space c then
        if in_run then split_runs true cur s'
        else cur :: split_runs true EmptyString s'
      else split_runs false (cur ++ String c EmptyString) s'
  end.

Definition splitWhitespace (s : string) : list string :=
  split_runs false EmptyString s.

(** [s.split(",")]. *)
Fixpoint split_char (sep : ascii) (cur : string) (s : string) : list string :=
  match s with
  | EmptyString => [cur]
  | String c s' =>
      if Ascii.eqb c sep then cur :: split_char sep EmptyString s'
      else split_char sep (cur ++ String c EmptyString) s'
  end.

Definition splitComma (s : string) : list string :=
  split_char ","%char EmptyString s.

(** [Boolean(s)] for a string. *)
Definition truthy (s : string) : bool :=
  match s with EmptyString => false | _ => true end.

End Str.

(** ** The tokenizer (the closure [tok]) *)

Definition BASE_STOP : list string :=
  [ "the"; "is"; "at"; "on"; "a"; "an"; "and"; "or";
    "и"; "на"; "по"; "для"; "как"; "это"; "не"; "из"; "та"; "що"; "але"; "від" ].

(** [customStopwords.split(",").map(s => s.trim().toLowerCase()).filter(Boolean)] *)
Definition customStop (customStopwords : string) : list string :=
  List.filter Str.truthy
    (List.map (fun s => Str.toLowerCase (Str.trim s)) (Str.splitComma customStopwords)).

Definition STOP (customStopwords : string) : gset string :=
  list_to_set (BASE_STOP ++ customStop customStopwords).

Definition tok (minTokenLength : Z) (STOP : gset string) (t : string) : list string :=
  List.filter
    (fun w => (minTokenLength <=? Z.of_nat (String.length w))%Z
              && negb (bool_decide (w ∈ STOP)))
    (Str.splitWhitespace
       (Str.replaceNonAlnum (Str.normalizeNFC (Str.toLowerCase t)))).

(** ** Numbers *)

Local Open Scope R_scope.

(** [x || d] for a number [x]: the default replaces zero. *)
Definition or_default (x d : R) : R := if Req_dec_T x 0 then d else x.

Definition or_defaultZ (x d : Z) : Z := if (x =? 0)%Z then d else x.

(** [x || d] for a count read from an object used as a map, where a missing
    key reads as [undefined]. *)
Definition or_count (x : option nat) (d : nat) : nat :=
  match x with
  | Some (S n) => S n
  | _ => d
  end.

(** [l.slice(start, end)] with JavaScript's treatment of negative and
    out-of-range indices. *)
Definition slice {A} (l : list A) (start end_ : Z) : list A :=
  let len := Z.of_nat (length l) in
  let k := if (start <? 0)%Z then Z.max (len + start) 0 else Z.min start len in
  let final := if (end_ <? 0)%Z then Z.max (len + end_) 0 else Z.min end_ len in
  take (Z.to_nat (final - k)) (drop (Z.to_nat k) l).

(** ** Data model *)

(** An n8n item: an object whose [json] property holds the payload. *)
Record Item (J : Type) := { json : option J }.
Arguments json {J} _.

(** The payload of a candidate document: each field is [None] when the
    property is missing or has another type than the one the code tests
    for.  [timestamp] holds [new Date(ts).getTime()] in milliseconds,
    [None] when [ts] is missing, falsy or does not parse. *)
Record DocJson := {
  chunk : option string;
  embedding : option (list R);
  score : option R;
  timestamp : option Z
}.

Definition Doc := Item DocJson.

(** The payload of the first input item. *)
Record InputJson := {
  query : option string;
  query_embedding : option (list R);
  items : option (list Doc)
}.

(** The node parameters, as [getNodeParameter] returns them. *)
Module Param.
Record t := {
  topN : Z;
  batchSize : Z;
  semWeight : R;
  lexWeight : R;
  exactWeight : R;
  timeWeight : R;
  useExternalScore : bool;
  recencyHalfLife : R;
  minTokenLength : Z;
  normalizeMethod : string;
  customStopwords : string;
  useModel : bool;
  modelWeights : string;
  debug : bool
}.
End Param.

(** The fusion weights [W]. *)
Record Weights := { W_sem : R; W_lex : R; W_exact : R; W_time : R }.

Record ModelWeights := { wSem : R; wBm25 : R; wExact : R; wRec : R; bias : R }.

(** The record built by the first pass over a batch. *)
Record Pre := { it : Doc; sem : R; bm25 : R; exact_ : R; rec : R }.

Record Debug := {
  d_sem : R; d_bm25 : R; d_exact : R; d_rec : R;
  bm25n_method : string;
  weights : Weights;
  weights_sum : R
}.

(** An output item: the candidate with the two score fields added to its
    payload, and the breakdown in debug mode. *)
Record Scored := {
  s_it : Doc;
  rerank_score : R;
  bm25_raw : R;
  s_debug : option Debug
}.

(** What [returnJsonArray] receives: scored candidates, or the one record
    describing an error. *)
Inductive OutItem :=
| Reranked (s : Scored)
| ErrorItem (error : bool) (message : string).

(** ** Helpers of [execute] *)

Fixpoint cos_loop (a b : list R) (dot na nb : R) : R * R * R :=
  match a, b with
  | x :: a', y :: b' => cos_loop a' b' (dot + x * y) (na + x ^ 2) (nb + y ^ 2)
  | _, _ => (dot, na, nb)
  end.

Definition cos (a b : list R) : R :=
  if (length a =? 0)%nat || (length b =? 0)%nat || negb (length a =? length b)%nat
  then 0
  else
    let '(dot, na, nb) := cos_loop a b 0 0 0 in
    let denom := sqrt na * sqrt nb in
    if Req_dec_T denom 0 then 0 else dot / denom.

(** [it.json?.chunk || ""] *)
Definition doc_chunk (d : Doc) : string :=
  match json d with
  | Some j => default "" (chunk j)
  | None => ""
  end.

Definition doc_score (d : Doc) : option R := j ← json d; score j.
Definition doc_embedding (d : Doc) : option (list R) := j ← json d; embedding j.
Definition doc_time (d : Doc) : option Z := j ← json d; timestamp j.

(** BM25 constants *)
Definition k1 : R := 1.2.
Definition b : R := 0.75.

Section Scoring.

(** The closure [tok], with [minTokenLength] and [STOP] fixed. *)
Variable tokenize : string -> list string.
Variable qTok : list string.

(** *** Global document frequencies *)

(** [globalDF[t] = (globalDF[t] || 0) + 1]: a count for every token but
    "constructor", which reads the inherited property (see
    [no_inherited_key]). *)
Definition globalDF_step (it : Doc) (globalDF : gmap string nat) (t : string)
  : gmap string nat :=
  let set : gset string := list_to_set (tokenize (doc_chunk it)) in
  if bool_decide (t ∈ set) then <[t := (or_count (globalDF !! t) 0 + 1)%nat]> globalDF
  else globalDF.

Definition globalDF_doc (globalDF : gmap string nat) (it : Doc) : gmap string nat :=
  fold_left (globalDF_step it) qTok globalDF.

Definition globalDF (docs : list Doc) : gmap string nat :=
  fold_left globalDF_doc docs ∅.

(** *** First pass over a batch *)

Variable useExternalScore : bool.
Variable qEmb : list R.
Variable recencyHalfLife : R.
Variable now : Z.
Variable docs_length : nat.
Variable gDF : gmap string nat.

Definition avgLen (batch : list Doc) : R :=
  INR (fold_left (fun s d => (s + length (tokenize (doc_chunk d)))%nat) batch 0%nat)
  / INR (Nat.max (length batch) 1).

(** [tfMap[t] = (tfMap[t] || 0) + 1], a count for every token but
    "constructor". *)
Definition tfMap (dTok : list string) : gmap string nat :=
  fold_left (fun m t => <[t := (or_count (m !! t) 0 + 1)%nat]> m) dTok ∅.

(** [Math.log((docs.length + 1) / (globalDF[t] || 1))], for a token other
    than "constructor". *)
Definition idf (t : string) : R :=
  ln (INR (docs_length + 1) / INR (or_count (gDF !! t) 1)).

(** One query token's contribution for term frequency [tf]. *)
Definition bm25_term (t : string) (tf : nat) (len avg : R) : R :=
  idf t * ((INR tf * (k1 + 1)) / (INR tf + k1 * (1 - b + b * (len / avg)))).

(** One round of [qTok.forEach]: [tf = tfMap[t] || 0], and the contribution
    is added when [tf] is truthy.  For the token "constructor" the code
    reads the inherited property and the score becomes [NaN]: the step is
    the code's for every other token. *)
Definition bm25_step (tfm : gmap string nat) (len avg : R) (acc : R) (t : string) : R :=
  let tf := or_count (tfm !! t) 0 in
  if (tf =? 0)%nat then acc else acc + bm25_term t tf len avg.

Definition bm25_of (dTok : list string) (avg : R) : R :=
  let len := INR (or_count (Some (length dTok)) 1) in
  fold_left (bm25_step (tfMap dTok) len avg) qTok 0.

Definition exact_of (dSet : gset string) : R :=
  INR (length (List.filter (fun t => bool_decide (t ∈ dSet)) qTok)) / INR (length qTok).

Definition sem_of (d : Doc) : R :=
  if useExternalScore then default 0 (doc_score d)
  else
    match doc_embedding d with
    | Some e =>
        if negb (length qEmb =? 0)%nat && negb (length e =? 0)%nat
        then cos qEmb e else 0
    | None => 0
    end.

Definition days_of (d : Doc) : R :=
  match doc_time d with
  | None => 999
  | Some docTime => (IZR now - IZR docTime) / 86400000
  end.

Definition rec_of (d : Doc) : R := exp (- days_of d / recencyHalfLife).

Definition pre_of (avg : R) (d : Doc) : Pre :=
  let dTok := tokenize (doc_chunk d) in
  let dSet : gset string := list_to_set dTok in
  {| it := d;
     sem := sem_of d;
     bm25 := bm25_of dTok avg;
     exact_ := exact_of dSet;
     rec := rec_of d |}.

End Scoring.

(** *** The BM25 normalizer of a batch *)

(** [Math.min(...vals)] and [Math.max(...vals)].  Of an empty sequence they
    are the infinities, which the model does not have: the normalizer is
    only applied to members of the batch it was built from, so the value
    given here for the empty sequence is never consulted. *)
Definition Math_min (vals : list R) : R :=
  match vals with
  | [] => 0
  | v :: vs => fold_left Rmin vs v
  end.

Definition Math_max (vals : list R) : R :=
  match vals with
  | [] => 0
  | v :: vs => fold_left Rmax vs v
  end.

Definition norm_minmax (vals : list R) (v : R) : R :=
  let minBM25 := Math_min vals in
  let maxBM25 := Math_max vals in
  if Req_dec_T maxBM25 minBM25 then 0 else (v - minBM25) / (maxBM25 - minBM25).

Definition norm_sigmoid (v : R) : R := 1 / (1 + exp (- v)).

Definition normBM25 (normalizeMethod : string) (pre : list Pre) : R -> R :=
  if String.eqb normalizeMethod "minmax"
  then norm_minmax (List.map bm25 pre)
  else norm_sigmoid.

(** *** Second pass: the final score *)

Section Fusion.

Variable useModel : bool.
Variable modelWeights : option ModelWeights.
Variable W : Weights.
Variable sumW : R.
Variable debug : bool.
Variable normalizeMethod : string.

Definition final_of (norm : R -> R) (p : Pre) : R :=
  match (if useModel then modelWeights else None) with
  | Some m =>
      let z := sem p * wSem m
               + norm (bm25 p) * wBm25 m
               + exact_ p * wExact m
               + rec p * wRec m
               + bias m in
      1 / (1 + exp (- z))
  | None =>
      (sem p * W_sem W)
      + (norm (bm25 p) * W_lex W)
      + (exact_ p * W_exact W)
      + (rec p * W_time W)
  end.

Definition out_of (norm : R -> R) (p : Pre) : Scored :=
  {| s_it := it p;
     rerank_score := final_of norm p;
     bm25_raw := bm25 p;
     s_debug :=
       if debug then
         Some {| d_sem := sem p; d_bm25 := bm25 p; d_exact := exact_ p; d_rec := rec p;
                 bm25n_method := normalizeMethod;
                 weights := W;
                 weights_sum := sumW |}
       else None |}.

(** *** The batch loop *)

Variable tokenize : string -> list string.
Variable qTok : list string.
Variable useExternalScore : bool.
Variable qEmb : list R.
Variable recencyHalfLife : R.
Variable now : Z.
Variable docs : list Doc.
Variable gDF : gmap string nat.
Variable batchSize : Z.

Definition process_batch (batch : list Doc) : list Scored :=
  let avg := avgLen tokenize batch in
  let pre :=
    List.map
      (pre_of tokenize qTok useExternalScore qEmb recencyHalfLife now (length docs) gDF avg)
      batch in
  let norm := normBM25 normalizeMethod pre in
  List.map (out_of norm) pre.

(** [for (let i = 0; i < docs.length; i += batchSize) { ... }] *)
Fixpoint batch_loop (fuel : nat) (i : Z) (results : list Scored) : option (list Scored) :=
  match fuel with
  | O => None
  | S fuel' =>
      if (i <? Z.of_nat (length docs))%Z then
        let batch := slice docs i (i + batchSize) in
        batch_loop fuel' (i + batchSize)%Z (results ++ process_batch batch)
      else Some results
  end.

End Fusion.

(** *** Sort and slice *)

(** The comparison function handed to [sort]. *)
Definition compareFn (a c : Scored) : R := rerank_score c - rerank_score a.

(** [Array.prototype.sort] is stable: an element moves behind a later one
    only when the comparison function is positive on the pair. *)
Fixpoint sort_insert {A} (cmp : A -> A -> R) (x : A) (l : list A) : list A :=
  match l with
  | [] => [x]
  | y :: l' => if Rlt_dec 0 (cmp x y) then y :: sort_insert cmp x l' else x :: l
  end.

Definition sort {A} (cmp : A -> A -> R) (l : list A) : list A :=
  fold_right (sort_insert cmp) [] l.

(** ** Exceptions *)

Inductive Exc (A : Type) :=
| Return (a : A)
| Throw (message : string).
Arguments Return {A} _.
Arguments Throw {A} _.

Global Instance Exc_ret : MRet Exc := fun A a => Return a.

Global Instance Exc_bind : MBind Exc := fun A B k m =>
  match m with
  | Return a => k a
  | Throw msg => Throw msg
  end.

(** [if (c) throw new Error(msg)] *)
Definition throw_if (c : bool) (msg : string) : Exc unit :=
  if c then Throw msg else Return tt.

(** The value of a property that has to have a given type. *)
Definition require {A} (x : option A) (msg : string) : Exc A :=
  match x with
  | Some a => Return a
  | None => Throw msg
  end.

(** ** [execute] *)

Definition empty_json : InputJson :=
  {| query := None; query_embedding := None; items := None |}.

Definition weights_of (P : Param.t) : Weights :=
  {| W_sem := or_default (Param.semWeight P) 0.7;
     W_lex := or_default (Param.lexWeight P) 0.25;
     W_exact := or_default (Param.exactWeight P) 0.10;
     W_time := or_default (Param.timeWeight P) 0.05 |}.

Definition sumW_of (W : Weights) : R := W_sem W + W_lex W + W_exact W + W_time W.

(** The soft validation of the weights: whether the warning is logged. *)
Definition weights_warning (W : Weights) : bool :=
  let sumW := sumW_of W in
  (if Rlt_dec sumW 0.9 then true else false) || (if Rlt_dec 1.1 sumW then true else false).

(** [modelWeightsStr.split(",").map(x => Number(x.trim())).filter(x => !Number.isNaN(x))] *)
Definition parse_weights (Number : string -> option R) (modelWeightsStr : string) : list R :=
  omap (fun x => Number (Str.trim x)) (Str.splitComma modelWeightsStr).

Definition model_of (arr : list R) : Exc ModelWeights :=
  match arr with
  | [a0; a1; a2; a3; a4] =>
      Return {| wSem := a0; wBm25 := a1; wExact := a2; wRec := a3; bias := a4 |}
  | _ => Throw "Model weights must contain exactly 5 numbers: sem,bm25,exact,rec,bias"
  end.

Section Execute.

(** [Number(s)] on strings, [None] for [NaN]. *)
Variable Number : string -> option R.
(** [Date.now()] *)
Variable now : Z.

(** The body of the [try] block: it throws, or reaches the batch loop
    and returns what the loop leaves (if the loop ends). *)
Definition execute_try (fuel : nat) (P : Param.t) (input : list (Item InputJson))
  : Exc (option (list OutItem)) :=
  _ ← throw_if (length input =? 0)%nat "No input items provided.";
  let topN := or_defaultZ (Param.topN P) 5 in
  let batchSize := or_defaultZ (Param.batchSize P) 200 in
  let useExternalScore := Param.useExternalScore P in
  let recencyHalfLife := or_default (Param.recencyHalfLife P) 60 in
  let minTokenLength := or_defaultZ (Param.minTokenLength P) 2 in
  let debug := Param.debug P in
  let normalizeMethod :=
    if Str.truthy (Param.normalizeMethod P) then Param.normalizeMethod P else "sigmoid" in
  let W := weights_of P in
  let sumW := sumW_of W in
  let useModel := Param.useModel P in
  let modelWeightsStr := Param.modelWeights P in
  let first := default empty_json (hd_error input ≫= json) in
  query_s ← require (query first) "Missing or invalid 'query'.";
  qEmb ← require (query_embedding first) "Missing or invalid 'query_embedding'.";
  docs ← require (items first) "Missing or invalid 'items' array.";
  let query := Str.trim (Str.toLowerCase query_s) in
  let tokenize := tok minTokenLength (STOP (Param.customStopwords P)) in
  let qTok := tokenize query in
  if (length qTok =? 0)%nat || (length docs =? 0)%nat then Return (Some [])
  else
    modelWeights ←
      (if useModel
       then m ← model_of (parse_weights Number modelWeightsStr); Return (Some m)
       else Return None);
    let gDF := globalDF tokenize qTok docs in
    Return
      (results ← batch_loop useModel modelWeights W sumW debug normalizeMethod
                   tokenize qTok useExternalScore qEmb recencyHalfLife now docs gDF
                   batchSize fuel 0%Z [];
       Some (List.map Reranked (slice (sort compareFn results) 0 topN))).

(** The [catch]: whatever was thrown becomes the one error record. *)
Definition execute (fuel : nat) (P : Param.t) (input : list (Item InputJson))
  : option (list OutItem) :=
  match execute_try fuel P input with
  | Return r => r
  | Throw message =>
      Some [ErrorItem true
              (if Str.truthy message then message else "Unknown reranker error")]
  end.

End Execute.

(** * Notions used in the statements *)

(** No query token spells a property that a plain object inherits from
    [Object.prototype].  A token is made of lower-case letters and digits,
    so "constructor" is the one such name.  For that token [tfMap[t]] and
    [globalDF[t]] read the inherited function, or a string built from it,
    instead of a count, and the scores are [NaN]; for every other token the
    finite maps of this model read what the objects of the code read. *)
Definition no_inherited_key (qTok : list string) : Prop := "constructor" ∉ qTok.


(** The effective parameters. *)
Definition topN_of (P : Param.t) : Z := or_defaultZ (Param.topN P) 5.
Definition batchSize_of (P : Param.t) : Z := or_defaultZ (Param.batchSize P) 200.
Definition recencyHalfLife_of (P : Param.t) : R := or_default (Param.recencyHalfLife P) 60.
Definition normalizeMethod_of (P : Param.t) : string :=
  if Str.truthy (Param.normalizeMethod P) then Param.normalizeMethod P else "sigmoid".

(** The closure [tok] of an invocation, and the query tokens [qTok]. *)
Definition tokenizer_of (P : Param.t) : string -> list string :=
  tok (or_defaultZ (Param.minTokenLength P) 2) (STOP (Param.customStopwords P)).

Definition query_tokens (P : Param.t) (q : string) : list string :=
  tokenizer_of P (Str.trim (Str.toLowerCase q)).

(** An input whose first item passes the three type checks. *)
Definition valid_input (q : string) (qEmb : list R) (docs : list Doc)
  (rest : list (Item InputJson)) : list (Item InputJson) :=
  {| json := Some {| query := Some q; query_embedding := Some qEmb; items := Some docs |} |}
  :: rest.

(** The batch loop as [execute] starts it. *)
Definition scoring_loop (now : Z) (P : Param.t) (m : option ModelWeights)
  (q : string) (qEmb : list R) (docs : list Doc) (fuel : nat) : option (list Scored) :=
  batch_loop (Param.useModel P) m (weights_of P) (sumW_of (weights_of P)) (Param.debug P)
    (normalizeMethod_of P) (tokenizer_of P) (query_tokens P q) (Param.useExternalScore P)
    qEmb (recencyHalfLife_of P) now docs
    (globalDF (tokenizer_of P) (query_tokens P q) docs) (batchSize_of P) fuel 0%Z [].

(** [results.sort(...).slice(0, topN)], handed to [returnJsonArray]. *)
Definition ranking (P : Param.t) (results : list Scored) : list OutItem :=
  List.map Reranked (slice (sort compareFn results) 0 (topN_of P)).

Definition bad_weights_message : string :=
  "Model weights must contain exactly 5 numbers: sem,bm25,exact,rec,bias".

(** The model handed to the second pass: none, or the five parsed numbers. *)
Definition model_for (Number : string -> option R) (P : Param.t) : option (option ModelWeights) :=
  if Param.useModel P then
    match parse_weights Number (Param.modelWeights P) with
    | [a0; a1; a2; a3; a4] =>
        Some (Some {| wSem := a0; wBm25 := a1; wExact := a2; wRec := a3; bias := a4 |})
    | _ => None
    end
  else Some None.

(** The failures of an invocation, in the order in which [execute] meets
    them, each with the message of its [throw]. *)
Inductive failure (Number : string -> option R) (P : Param.t)
  : list (Item InputJson) -> string -> Prop :=
| no_input_items :
    failure Number P [] "No input items provided."
| query_not_a_string first rest :
    (json first ≫= query) = None ->
    failure Number P (first :: rest) "Missing or invalid 'query'."
| query_embedding_not_an_array first rest j q :
    json first = Some j -> query j = Some q -> query_embedding j = None ->
    failure Number P (first :: rest) "Missing or invalid 'query_embedding'."
| items_not_an_array first rest j q qEmb :
    json first = Some j -> query j = Some q -> query_embedding j = Some qEmb ->
    items j = None ->
    failure Number P (first :: rest) "Missing or invalid 'items' array."
| invalid_model_weights q qEmb docs rest :
    query_tokens P q <> [] -> docs <> [] ->
    Param.useModel P = true ->
    length (parse_weights Number (Param.modelWeights P)) <> 5%nat ->
    failure Number P (valid_input q qEmb docs rest) bad_weights_message.

(** The document frequency of a token, in the words of the specification:
    the number of candidates whose token set contains it. *)
Definition document_frequency (tokenize : string -> list string) (docs : list Doc)
  (t : string) : nat :=
  length (List.filter
            (fun d => bool_decide (t ∈ (list_to_set (tokenize (doc_chunk d)) : gset string)))
            docs).

(** The number of times a token occurs in the query-token sequence. *)
Definition occurrences (t : string) (qTok : list string) : nat :=
  length (List.filter (fun u => bool_decide (u = t)) qTok).

(** The fraction of the distinct query tokens that are in the document's
    token set, in the words of the specification: a repeated query token
    counts once, above and below the line. *)
Definition distinct_overlap (qTok : list string) (dSet : gset string) : R :=
  INR (size ((list_to_set qTok : gset string) ∩ dSet))
  / INR (size (list_to_set qTok : gset string)).

(** The candidates of an input: [items[0].json.items]. *)
Definition candidates (input : list (Item InputJson)) : option (list Doc) :=
  match input with
  | first :: _ => match json first with Some j => items j | None => None end
  | [] => None
  end.

(** No candidate carries a time stamp. *)
Definition no_timestamps (input : list (Item InputJson)) : Prop :=
  match candidates input with
  | Some docs => Forall (fun d => doc_time d = None) docs
  | None => True
  end.

(** * Concrete invocations *)

(** [Number(s)] on the decimal literals without exponent (the empty string
    reads as zero); every other string reads as [NaN] here. *)
Module Decimal.

Definition digit_of (c : ascii) : option Z :=
  if Str.is_digit c then Some (Z.of_nat (nat_of_ascii c) - 48)%Z else None.

(** The value and the number of the leading digits, and what follows them. *)
Fixpoint read_digits (s : string) (acc : Z) (n : nat) : Z * nat * string :=
  match s with
  | EmptyString => (acc, n, s)
  | String c s' =>
      match digit_of c with
      | Some d => read_digits s' (10 * acc + d)%Z (S n)
      | None => (acc, n, s)
      end
  end.

Definition unsigned (s : string) : option R :=
  let '(int, ni, rest) := read_digits s 0%Z 0%nat in
  match rest with
  | EmptyString => if (ni =? 0)%nat then None else Some (IZR int)
  | String "."%char rest' =>
      let '(frac, nf, rest'') := read_digits rest' 0%Z 0%nat in
      match rest'' with
      | EmptyString =>
          if (ni + nf =? 0)%nat then None
          else Some (IZR int + IZR frac / IZR (10 ^ Z.of_nat nf))
      | _ => None
      end
  | _ => None
  end.

Definition Number (s : string) : option R :=
  match Str.trim s with
  | EmptyString => Some 0
  | String "-"%char s' => x ← unsigned s'; Some (- x)
  | String "+"%char s' => unsigned s'
  | s' => unsigned s'
  end.

End Decimal.

Definition doc_of (text : string) : Doc :=
  {| json := Some {| chunk := Some text; embedding := None; score := None;
                     timestamp := None |} |}.

Definition doc_at (text : string) (time : Z) : Doc :=
  {| json := Some {| chunk := Some text; embedding := None; score := None;
                     timestamp := Some time |} |}.

(** The defaults of the node description. *)
Definition default_params : Param.t :=
  {| Param.topN := 5; Param.batchSize := 200;
     Param.semWeight := 0.7; Param.lexWeight := 0.25;
     Param.exactWeight := 0.10; Param.timeWeight := 0.05;
     Param.useExternalScore := false; Param.recencyHalfLife := 60;
     Param.minTokenLength := 2; Param.normalizeMethod := "sigmoid";
     Param.customStopwords := ""; Param.useModel := false;
     Param.modelWeights := ""; Param.debug := false |}.

Definition three_docs : list Doc :=
  [doc_of "machine learning basics"; doc_of "deep learning networks"; doc_of "cooking recipes"].

Definition learning_input : list (Item InputJson) :=
  valid_input "Machine Learning" [] three_docs [].

Definition negative_topN : Param.t :=
  {| Param.topN := -1; Param.batchSize := 200;
     Param.semWeight := 0.7; Param.lexWeight := 0.25;
     Param.exactWeight := 0.10; Param.timeWeight := 0.05;
     Param.useExternalScore := false; Param.recencyHalfLife := 60;
     Param.minTokenLength := 2; Param.normalizeMethod := "sigmoid";
     Param.customStopwords := ""; Param.useModel := false;
     Param.modelWeights := ""; Param.debug := false |}.

Definition two_weights : Param.t :=
  {| Param.topN := 5; Param.batchSize := 200;
     Param.semWeight := 0.7; Param.lexWeight := 0.25;
     Param.exactWeight := 0.10; Param.timeWeight := 0.05;
     Param.useExternalScore := false; Param.recencyHalfLife := 60;
     Param.minTokenLength := 2; Param.normalizeMethod := "sigmoid";
     Param.customStopwords := ""; Param.useModel := true;
     Param.modelWeights := "0.1,0.2"; Param.debug := false |}.

Definition five_weights : Param.t :=
  {| Param.topN := 5; Param.batchSize := 200;
     Param.semWeight := 0.7; Param.lexWeight := 0.25;
     Param.exactWeight := 0.10; Param.timeWeight := 0.05;
     Param.useExternalScore := false; Param.recencyHalfLife := 60;
     Param.minTokenLength := 2; Param.normalizeMethod := "sigmoid";
     Param.customStopwords := ""; Param.useModel := true;
     Param.modelWeights := "0.8,0.5,0.3,0.1,-0.2"; Param.debug := false |}.

Definition data_docs : list Doc :=
  [doc_of "data one"; doc_of "data two"; doc_of "other text"].

Definition dated_input : list (Item InputJson) :=
  valid_input "Machine Learning" [] [doc_at "machine learning basics" 0] [].

Definition spread_batch : list Pre :=
  [ {| it := doc_of "no match"; sem := 0; bm25 := 0; exact_ := 0; rec := 1 |};
    {| it := doc_of "a match"; sem := 0; bm25 := 1; exact_ := 1; rec := 1 |} ].

Definition flat_batch : list Pre :=
  [ {| it := doc_of "same text"; sem := 0; bm25 := 1; exact_ := 0; rec := 1 |};
    {| it := doc_of "same text"; sem := 0; bm25 := 1; exact_ := 0; rec := 1 |} ].

Definition negative_batchSize : Param.t :=
  {| Param.topN := 5; Param.batchSize := -1;
     Param.semWeight := 0.7; Param.lexWeight := 0.25;
     Param.exactWeight := 0.10; Param.timeWeight := 0.05;
     Param.useExternalScore := false; Param.recencyHalfLife := 60;
     Param.minTokenLength := 2; Param.normalizeMethod := "sigmoid";
     Param.customStopwords := ""; Param.useModel := false;
     Param.modelWeights := ""; Param.debug := false |}.

Definition debug_params : Param.t :=
  {| Param.topN := 5; Param.batchSize := 2;
     Param.semWeight := 0.7; Param.lexWeight := 0.25;
     Param.exactWeight := 0.10; Param.timeWeight := 0.05;
     Param.useExternalScore := false; Param.recencyHalfLife := 60;
     Param.minTokenLength := 2; Param.normalizeMethod := "minmax";
     Param.customStopwords := ""; Param.useModel := false;
     Param.modelWeights := ""; Param.debug := true |}.


Definition two_scored : list Scored :=
  [ {| s_it := doc_of "first"; rerank_score := 1; bm25_raw := 0; s_debug := None |};
    {| s_it := doc_of "second"; rerank_score := 2; bm25_raw := 0; s_debug := None |} ].

(** * Notions used in the further properties *)

(** Every character of a string passes a test. *)
Fixpoint all_chars (P : ascii -> bool) (s : string) : bool :=
  match s with
  | EmptyString => true
  | String c s' => P c && all_chars P s'
  end.

(** The characters a token is made of: lower-case letters and digits. *)
Definition token_char (c : ascii) : bool := Str.is_lower c || Str.is_digit c.

(** The number of times a token occurs in a document's token sequence. *)
Definition term_count (t : string) (dTok : list string) : nat :=
  length (List.filter (fun u => bool_decide (u = t)) dTok).

(** A count map never stores a zero. *)
Definition counts_positive (m : gmap string nat) : Prop :=
  forall t, m !! t <> Some 0%nat.

(** * Properties *)

(** ** The tokenizer and [slice] on examples *)

Example tok_example :
  tok 2 (STOP "") "The  Machine-learning, a BASICS!" = ["machine"; "learning"; "basics"].
Proof. vm_compute. reflexivity. Qed.

Example tok_empty : tok 2 (STOP "") "" = [].
Proof. vm_compute. reflexivity. Qed.

Example tok_custom_stop :
  tok 2 (STOP " Deep ,learning") "deep learning networks" = ["networks"].
Proof. vm_compute. reflexivity. Qed.

(** A leading separator leaves an empty piece, which only a minimum length
    below one lets through. *)
Example tok_negative_min_length : tok (-1) (STOP "") " ab" = [""; "ab"].
Proof. vm_compute. reflexivity. Qed.

Example customStop_example : customStop " Deep ,learning,, " = ["deep"; "learning"].
Proof. vm_compute. reflexivity. Qed.

Example slice_negative_end : slice [1; 2; 3]%nat 0 (-1) = [1; 2]%nat.
Proof. reflexivity. Qed.

Example slice_batch : slice [1; 2; 3; 4; 5]%nat 2 (2 + 2) = [3; 4]%nat.
Proof. reflexivity. Qed.

(** ** [slice] *)

Lemma slice_from_0 {A} (l : list A) (n : Z) :
  slice l 0 n =
  take (Z.to_nat (if (n <? 0)%Z then Z.max (Z.of_nat (length l) + n) 0
                  else Z.min n (Z.of_nat (length l)))) l.
Proof.
  unfold slice. cbn [Z.ltb Z.compare].
  replace (Z.min 0 (Z.of_nat (length l))) with 0%Z by lia.
  rewrite Z.sub_0_r. reflexivity.
Qed.


Lemma slice_length {A} (l : list A) (i j : Z) :
  (0 <= i)%Z -> (i <= j)%Z ->
  Z.of_nat (length (slice l i j)) =
  (Z.min j (Z.of_nat (length l)) - Z.min i (Z.of_nat (length l)))%Z.
Proof.
  intros Hi Hj. unfold slice.
  destruct (i <? 0)%Z eqn:Ei; [apply Z.ltb_lt in Ei; lia |].
  destruct (j <? 0)%Z eqn:Ej; [apply Z.ltb_lt in Ej; lia |].
  rewrite length_take, length_drop. lia.
Qed.

Lemma slice_elem_of {A} (l : list A) (i j : Z) (x : A) :
  x ∈ slice l i j -> x ∈ l.
Proof.
  unfold slice. intros H.
  apply elem_of_take in H as (n & H & _).
  rewrite lookup_drop in H. eapply list_elem_of_lookup_2, H.
Qed.

(** The first batch is the whole list when the batch size covers it. *)
Lemma slice_whole {A} (l : list A) (n : Z) :
  (Z.of_nat (length l) <= n)%Z -> slice l 0 (0 + n) = l.
Proof.
  intros H. rewrite slice_from_0. rewrite Z.add_0_l.
  destruct (n <? 0)%Z eqn:E; [apply Z.ltb_lt in E; lia |].
  apply take_ge. lia.
Qed.

(** ** [sort] *)

Section Sort.

Context {A : Type} (key : A -> R).

(** The comparison functions of the shape [(a, c) => key(c) - key(a)]. *)
Let cmp (a c : A) : R := key c - key a.

Lemma sort_insert_perm (x : A) (l : list A) : Permutation (sort_insert cmp x l) (x :: l).
Proof.
  induction l as [|y l IH]; cbn; [reflexivity |].
  destruct (Rlt_dec 0 (cmp x y)); [| reflexivity].
  rewrite IH. apply perm_swap.
Qed.

Lemma sort_perm (l : list A) : Permutation (sort cmp l) l.
Proof.
  induction l as [|x l IH]; cbn; [reflexivity |].
  rewrite sort_insert_perm. now constructor.
Qed.

Lemma sort_length (l : list A) : length (sort cmp l) = length l.
Proof. apply Permutation_length, sort_perm. Qed.





End Sort.

(** ** The batch loop *)

Section LoopFacts.

Context (useModel : bool) (modelWeights : option ModelWeights) (W : Weights) (sumW : R)
        (debug : bool) (normalizeMethod : string) (tokenize : string -> list string)
        (qTok : list string) (useExternalScore : bool) (qEmb : list R)
        (recencyHalfLife : R) (docs : list Doc) (gDF : gmap string nat) (batchSize : Z).

Local Abbreviation process now :=
  (process_batch useModel modelWeights W sumW debug normalizeMethod tokenize qTok
     useExternalScore qEmb recencyHalfLife now docs gDF).
Local Abbreviation loop now :=
  (batch_loop useModel modelWeights W sumW debug normalizeMethod tokenize qTok
     useExternalScore qEmb recencyHalfLife now docs gDF batchSize).

Lemma process_batch_length now (batch : list Doc) :
  length (process now batch) = length batch.
Proof. unfold process_batch. now rewrite !length_map. Qed.

(** With a positive batch size the loop ends, within [length docs + 1]
    tests of its condition, and has scored every document once. *)
Lemma batch_loop_terminates now (fuel : nat) :
  (0 < batchSize)%Z ->
  forall (i : Z) (results : list Scored),
    (0 <= i)%Z ->
    (Z.max 0 (Z.of_nat (length docs) - i) < Z.of_nat fuel)%Z ->
    exists out,
      loop now fuel i results = Some out /\
      Z.of_nat (length out) =
      (Z.of_nat (length results)
       + (Z.of_nat (length docs) - Z.min i (Z.of_nat (length docs))))%Z.
Proof.
  intros Hb. induction fuel as [|fuel IH]; intros i results Hi Hf.
  - lia.
  - cbn [batch_loop].
    destruct (i <? Z.of_nat (length docs))%Z eqn:E.
    + apply Z.ltb_lt in E.
      destruct (IH (i + batchSize)%Z
                  (results ++ process now (slice docs i (i + batchSize)))%list)
        as (out & Hout & Hlen); [lia | lia |].
      exists out. split; [exact Hout |].
      rewrite Hlen, length_app, process_batch_length, Nat2Z.inj_add.
      rewrite slice_length by lia. lia.
    + apply Z.ltb_ge in E. exists results. split; [reflexivity | lia].
Qed.

Lemma batch_loop_fuel_mono now (fuel fuel' : nat) (i : Z) (results out : list Scored) :
  (fuel <= fuel')%nat ->
  loop now fuel i results = Some out -> loop now fuel' i results = Some out.
Proof.
  revert fuel' i results. induction fuel as [|fuel IH]; intros fuel' i results Hle H.
  - discriminate.
  - destruct fuel' as [|fuel']; [lia |].
    cbn [batch_loop] in *.
    destruct (i <? Z.of_nat (length docs))%Z; [| exact H].
    apply IH; [lia | exact H].
Qed.

(** A single batch, when the batch size covers the candidates. *)
Lemma batch_loop_single now (fuel : nat) :
  docs <> [] -> (Z.of_nat (length docs) <= batchSize)%Z ->
  loop now (S (S fuel)) 0%Z [] = Some (process now docs).
Proof.
  intros Hne Hb. cbn [batch_loop].
  destruct (0 <? Z.of_nat (length docs))%Z eqn:E.
  - rewrite slice_whole by exact Hb. rewrite app_nil_l.
    destruct (0 + batchSize <? Z.of_nat (length docs))%Z eqn:E'; [| reflexivity].
    apply Z.ltb_lt in E'. lia.
  - apply Z.ltb_ge in E. destruct docs; [congruence | cbn in E; lia].
Qed.

(** With a negative batch size the index only moves away from the end of
    the list: the loop never ends. *)
Lemma batch_loop_diverges now (fuel : nat) :
  (batchSize < 0)%Z ->
  forall (i : Z) (results : list Scored),
    (i < Z.of_nat (length docs))%Z -> loop now fuel i results = None.
Proof.
  intros Hb. induction fuel as [|fuel IH]; intros i results Hi; [reflexivity |].
  cbn [batch_loop].
  destruct (i <? Z.of_nat (length docs))%Z eqn:E.
  - apply IH. lia.
  - apply Z.ltb_ge in E. lia.
Qed.

(** The clock is read only for documents that carry a time stamp. *)
Lemma pre_of_now now1 now2 (avg : R) (d : Doc) :
  doc_time d = None ->
  pre_of tokenize qTok useExternalScore qEmb recencyHalfLife now1 (length docs) gDF avg d =
  pre_of tokenize qTok useExternalScore qEmb recencyHalfLife now2 (length docs) gDF avg d.
Proof.
  intros Hd. unfold pre_of. f_equal.
  unfold rec_of, days_of. now rewrite Hd.
Qed.

Lemma process_batch_now now1 now2 (batch : list Doc) :
  Forall (fun d => doc_time d = None) batch ->
  process now1 batch = process now2 batch.
Proof.
  intros Hb. unfold process_batch.
  assert (Hpre :
    List.map (pre_of tokenize qTok useExternalScore qEmb recencyHalfLife now1
                (length docs) gDF (avgLen tokenize batch)) batch =
    List.map (pre_of tokenize qTok useExternalScore qEmb recencyHalfLife now2
                (length docs) gDF (avgLen tokenize batch)) batch).
  { apply map_ext_in. intros d Hd. apply pre_of_now.
    rewrite Forall_forall in Hb. apply Hb, list_elem_of_In, Hd. }
  now rewrite Hpre.
Qed.

Lemma batch_loop_now now1 now2 (fuel : nat) :
  Forall (fun d => doc_time d = None) docs ->
  forall (i : Z) (results : list Scored),
    loop now1 fuel i results = loop now2 fuel i results.
Proof.
  intros Hd. induction fuel as [|fuel IH]; intros i results; [reflexivity |].
  cbn [batch_loop].
  destruct (i <? Z.of_nat (length docs))%Z; [| reflexivity].
  rewrite (process_batch_now now1 now2); [apply IH |].
  rewrite Forall_forall in Hd |- *. intros d Hin.
  apply Hd. eapply slice_elem_of, Hin.
Qed.

End LoopFacts.

(** ** What [execute] computes *)

Section ExecuteFacts.

Context (Number : string -> option R) (now : Z).

Lemma length_eqb_0 {A} (l : list A) : (length l =? 0)%nat = true <-> l = [].
Proof. destruct l; cbn; split; congruence. Qed.

Lemma execute_no_input fuel P :
  execute Number now fuel P [] = Some [ErrorItem true "No input items provided."].
Proof. reflexivity. Qed.

Lemma execute_bad_query fuel P first rest :
  (json first ≫= query) = None ->
  execute Number now fuel P (first :: rest) =
  Some [ErrorItem true "Missing or invalid 'query'."].
Proof.
  intros H. unfold execute, execute_try. cbn.
  destruct (json first) as [j|]; cbn in *; [rewrite H |]; reflexivity.
Qed.

Lemma execute_bad_embedding fuel P first rest j q :
  json first = Some j -> query j = Some q -> query_embedding j = None ->
  execute Number now fuel P (first :: rest) =
  Some [ErrorItem true "Missing or invalid 'query_embedding'."].
Proof.
  intros Hj Hq He. unfold execute, execute_try. cbn.
  rewrite Hj. cbn. rewrite Hq. cbn. rewrite He. reflexivity.
Qed.

Lemma execute_bad_items fuel P first rest j q qEmb :
  json first = Some j -> query j = Some q -> query_embedding j = Some qEmb ->
  items j = None ->
  execute Number now fuel P (first :: rest) =
  Some [ErrorItem true "Missing or invalid 'items' array."].
Proof.
  intros Hj Hq He Hi. unfold execute, execute_try. cbn.
  rewrite Hj. cbn. rewrite Hq. cbn. rewrite He. cbn. rewrite Hi. reflexivity.
Qed.

(** Past the type checks. *)
Lemma execute_try_valid fuel P q qEmb docs rest :
  execute_try Number now fuel P (valid_input q qEmb docs rest) =
  if (length (query_tokens P q) =? 0)%nat || (length docs =? 0)%nat then Return (Some [])
  else
    modelWeights ←
      (if Param.useModel P
       then m ← model_of (parse_weights Number (Param.modelWeights P)); Return (Some m)
       else Return None);
    Return (results ← scoring_loop now P modelWeights q qEmb docs fuel;
            Some (ranking P results)).
Proof. reflexivity. Qed.

(** The guard before any scoring: nothing to rank. *)
Lemma execute_short_circuit fuel P q qEmb docs rest :
  query_tokens P q = [] \/ docs = [] ->
  execute Number now fuel P (valid_input q qEmb docs rest) = Some [].
Proof.
  intros H. unfold execute. rewrite execute_try_valid.
  destruct H as [-> | ->]; cbn [length Nat.eqb orb]; [reflexivity |].
  now rewrite orb_true_r.
Qed.

Lemma execute_bad_model fuel P q qEmb docs rest :
  query_tokens P q <> [] -> docs <> [] ->
  Param.useModel P = true ->
  length (parse_weights Number (Param.modelWeights P)) <> 5%nat ->
  execute Number now fuel P (valid_input q qEmb docs rest) =
  Some [ErrorItem true bad_weights_message].
Proof.
  intros Hq Hd Hm Hlen. unfold execute. rewrite execute_try_valid.
  rewrite <- length_eqb_0 in Hq. rewrite <- length_eqb_0 in Hd.
  apply not_true_is_false in Hq, Hd. rewrite Hq, Hd, Hm. cbn [orb].
  destruct (parse_weights Number (Param.modelWeights P))
    as [|a0 [|a1 [|a2 [|a3 [|a4 [|a5 l]]]]]]; cbn in *; try reflexivity.
  congruence.
Qed.

Lemma execute_scores fuel P q qEmb docs rest m :
  query_tokens P q <> [] -> docs <> [] ->
  model_for Number P = Some m ->
  execute Number now fuel P (valid_input q qEmb docs rest) =
  (results ← scoring_loop now P m q qEmb docs fuel; Some (ranking P results)).
Proof.
  intros Hq Hd Hm. unfold execute. rewrite execute_try_valid.
  rewrite <- length_eqb_0 in Hq. rewrite <- length_eqb_0 in Hd.
  apply not_true_is_false in Hq, Hd. rewrite Hq, Hd. cbn [orb].
  unfold model_for in Hm.
  destruct (Param.useModel P); cbn.
  - destruct (parse_weights Number (Param.modelWeights P))
      as [|a0 [|a1 [|a2 [|a3 [|a4 [|a5 l]]]]]]; try discriminate.
    injection Hm as <-. reflexivity.
  - injection Hm as <-. reflexivity.
Qed.

Lemma model_for_bad P :
  model_for Number P = None <->
  Param.useModel P = true /\ length (parse_weights Number (Param.modelWeights P)) <> 5%nat.
Proof.
  unfold model_for. destruct (Param.useModel P).
  - destruct (parse_weights Number (Param.modelWeights P))
      as [|a0 [|a1 [|a2 [|a3 [|a4 [|a5 l]]]]]]; cbn; split;
      try (intros [_ H]; congruence); try discriminate; intros _; split; congruence.
  - split; [discriminate | intros [H _]; discriminate].
Qed.

(** Every candidate is scored exactly once when the loop ends, and it ends
    when the batch size is positive. *)
Lemma scoring_loop_length P m q qEmb docs fuel results :
  scoring_loop now P m q qEmb docs fuel = Some results ->
  length results = length docs.
Proof.
  unfold scoring_loop. intros H.
  destruct (Z.lt_trichotomy (batchSize_of P) 0) as [Hb | [Hb | Hb]].
  - destruct docs as [|d docs'].
    + destruct fuel; [discriminate | cbn in H]. now injection H as <-.
    + rewrite batch_loop_diverges in H; [discriminate | exact Hb | cbn; lia].
  - unfold batchSize_of, or_defaultZ in Hb.
    destruct (Param.batchSize P =? 0)%Z eqn:E; [discriminate |].
    apply Z.eqb_neq in E. congruence.
  - eapply batch_loop_fuel_mono with (fuel' := Nat.max fuel (S (length docs))) in H; [| lia].
    edestruct batch_loop_terminates as (out & Hout & Hlen); [exact Hb | | | ].
    3: { rewrite Hout in H. injection H as <-. cbn in Hlen. lia. }
    + lia.
    + lia.
Qed.

Lemma scoring_loop_terminates P m q qEmb docs fuel :
  (0 < batchSize_of P)%Z -> (length docs < fuel)%nat ->
  exists results, scoring_loop now P m q qEmb docs fuel = Some results.
Proof.
  intros Hb Hf. unfold scoring_loop.
  edestruct batch_loop_terminates as (out & Hout & _); [exact Hb | | | eexists; exact Hout]; lia.
Qed.

End ExecuteFacts.

Lemma learning_tokens : query_tokens default_params "Machine Learning" = ["machine"; "learning"].
Proof. vm_compute. reflexivity. Qed.

(** * C1: length and order of a ranking *)


Section TopN.

Context (Number : string -> option R) (now : Z).


End TopN.


(** A successful invocation exists: three candidates under the default
    parameters. *)
Lemma learning_run (now : Z) :
  exists results,
    length results = 3%nat /\
    execute Decimal.Number now 5 default_params learning_input =
    Some (List.map Reranked (slice (sort compareFn results) 0 5)).
Proof.
  destruct (scoring_loop_terminates now default_params None "Machine Learning" [] three_docs 5)
    as (results & Hloop); [reflexivity | cbn; lia |].
  exists results. split; [apply (scoring_loop_length _ _ _ _ _ _ _ _ Hloop) |].
  unfold learning_input.
  rewrite (execute_scores Decimal.Number now 5 default_params _ _ _ _ None);
    [| rewrite learning_tokens; discriminate | discriminate | reflexivity].
  rewrite Hloop. reflexivity.
Qed.



(** * C2: failures are returned, not raised *)

(** C2, as the code has it: each failure ends the invocation with the one
    error record, [error = true] and the message of the failure; invalid
    model weights are a failure once there are query tokens and candidates
    to score. *)
Theorem C2_failure_is_returned
  (Number : string -> option R) (now : Z) (fuel : nat) (P : Param.t)
  (input : list (Item InputJson)) (message : string) :
  failure Number P input message ->
  execute Number now fuel P input = Some [ErrorItem true message] /\ message <> "".
Proof.
  intros [ | first rest H | first rest j q Hj Hq He | first rest j q qEmb Hj Hq He Hi
         | q qEmb docs rest Hq Hd Hm Hlen ].
  - split; [apply execute_no_input | discriminate].
  - split; [now apply execute_bad_query | discriminate].
  - split; [now apply (execute_bad_embedding _ _ _ _ _ _ j q) | discriminate].
  - split; [now apply (execute_bad_items _ _ _ _ _ _ j q qEmb) | discriminate].
  - split; [now apply execute_bad_model | discriminate].
Qed.

Lemma two_weights_parsed :
  length (parse_weights Decimal.Number (Param.modelWeights two_weights)) = 2%nat.
Proof. reflexivity. Qed.

Lemma C2_failure_is_returned_witness :
  failure Decimal.Number two_weights learning_input bad_weights_message /\
  execute Decimal.Number 0 5 two_weights learning_input =
  Some [ErrorItem true bad_weights_message] /\ bad_weights_message <> "".
Proof.
  assert (Hf : failure Decimal.Number two_weights learning_input bad_weights_message).
  { apply invalid_model_weights.
    - vm_compute. discriminate.
    - discriminate.
    - reflexivity.
    - rewrite two_weights_parsed. lia. }
  split; [exact Hf |].
  exact (C2_failure_is_returned Decimal.Number 0 5 two_weights learning_input
           bad_weights_message Hf).
Defined.

(** Invalid model weights with nothing to score: the guard returns the
    empty result before the weights are looked at. *)
Lemma C2_unscored_weights_counterexample :
  Param.useModel two_weights = true /\
  length (parse_weights Decimal.Number (Param.modelWeights two_weights)) <> 5%nat /\
  execute Decimal.Number 0 5 two_weights (valid_input "Machine Learning" [] [] []) = Some [] /\
  forall message,
    execute Decimal.Number 0 5 two_weights (valid_input "Machine Learning" [] [] [])
    <> Some [ErrorItem true message].
Proof.
  assert (H : execute Decimal.Number 0 5 two_weights
                (valid_input "Machine Learning" [] [] []) = Some []).
  { apply execute_short_circuit. right. reflexivity. }
  split; [reflexivity |]. split; [rewrite two_weights_parsed; lia |].
  split; [exact H |]. intros message. rewrite H. discriminate.
Qed.

(** * C3: the global document frequencies *)

Section GlobalDF.

Context (tokenize : string -> list string).

Local Abbreviation count g t := (or_count (g !! t) 0).

Lemma or_count_succ (n : nat) : or_count (Some (n + 1)%nat) 0 = (n + 1)%nat.
Proof. rewrite Nat.add_1_r. reflexivity. Qed.

Lemma globalDF_step_count (d : Doc) (g : gmap string nat) (u t : string) :
  count (globalDF_step tokenize d g u) t =
  (count g t +
   if bool_decide (u = t)
      && bool_decide (t ∈ (list_to_set (tokenize (doc_chunk d)) : gset string))
   then 1 else 0)%nat.
Proof.
  unfold globalDF_step.
  destruct (bool_decide_reflect (u = t)) as [-> | Hne]; cbn [andb].
  - destruct (bool_decide (t ∈ _)); [| lia].
    rewrite lookup_insert_eq. apply or_count_succ.
  - destruct (bool_decide (u ∈ _)); [| lia].
    rewrite lookup_insert_ne by exact Hne. lia.
Qed.

Lemma globalDF_doc_count (qTok : list string) (d : Doc) (g : gmap string nat) (t : string) :
  count (globalDF_doc tokenize qTok g d) t =
  (count g t +
   if bool_decide (t ∈ (list_to_set (tokenize (doc_chunk d)) : gset string))
   then occurrences t qTok else 0)%nat.
Proof.
  unfold globalDF_doc, occurrences. revert g.
  induction qTok as [|u qTok IH]; intros g; cbn [fold_left List.filter].
  - destruct (bool_decide _); cbn; lia.
  - rewrite IH, globalDF_step_count.
    destruct (bool_decide (u = t)), (bool_decide (t ∈ _)); cbn [andb length]; lia.
Qed.

(** What the code counts: each candidate that contains the token, once per
    occurrence of the token in the query. *)
Lemma globalDF_count (qTok : list string) (docs : list Doc) (t : string) :
  count (globalDF tokenize qTok docs) t =
  (occurrences t qTok * document_frequency tokenize docs t)%nat.
Proof.
  unfold globalDF, document_frequency.
  assert (H : forall g,
    count (fold_left (globalDF_doc tokenize qTok) docs g) t =
    (count g t + occurrences t qTok *
       length (List.filter
                 (fun d => bool_decide
                             (t ∈ (list_to_set (tokenize (doc_chunk d)) : gset string)))
                 docs))%nat).
  { induction docs as [|d docs IH]; intros g; cbn [fold_left List.filter].
    - cbn. lia.
    - rewrite IH, globalDF_doc_count.
      destruct (bool_decide (t ∈ _)); cbn [length]; lia. }
  rewrite H. rewrite lookup_empty. cbn. lia.
Qed.

Lemma occurrences_NoDup (qTok : list string) (t : string) :
  NoDup qTok -> t ∈ qTok -> occurrences t qTok = 1%nat.
Proof.
  unfold occurrences. induction 1 as [|u qTok Hu Hnd IH]; intros Hin.
  - inversion Hin.
  - cbn [List.filter]. destruct (bool_decide_reflect (u = t)) as [-> | Hne].
    + cbn [length]. f_equal.
      clear IH Hnd Hin. induction qTok as [|v qTok IH]; [reflexivity |].
      cbn [List.filter]. destruct (bool_decide_reflect (v = t)) as [-> | Hv].
      * exfalso. apply Hu. apply list_elem_of_here.
      * apply IH. intros H. apply Hu. apply list_elem_of_further, H.
    + apply IH. apply elem_of_cons in Hin as [-> | Hin]; [congruence | exact Hin].
Qed.

(** When no query token is repeated the map holds the document frequency of
    every query token.  The map is built from the whole candidate list and
    takes no batch size. *)
Lemma globalDF_document_frequency (qTok : list string) (docs : list Doc) (t : string) :
  NoDup qTok -> t ∈ qTok ->
  count (globalDF tokenize qTok docs) t = document_frequency tokenize docs t.
Proof.
  intros Hnd Hin. rewrite globalDF_count, (occurrences_NoDup qTok t Hnd Hin). lia.
Qed.

End GlobalDF.

(** C3 at the query "data data": the token is in two of the three
    candidates, and the map built by the code holds four. *)
Theorem C3_repeated_query_token_counted_per_occurrence :
  let tokenize := tokenizer_of default_params in
  let qTok := query_tokens default_params "data data" in
  qTok = ["data"; "data"] /\
  document_frequency tokenize data_docs "data" = 2%nat /\
  globalDF tokenize qTok data_docs !! "data" = Some 4%nat.
Proof. vm_compute. repeat split; reflexivity. Qed.

(** * C4: the exact-overlap signal *)

Lemma filter_bool_decide {A} (P : A -> Prop) `{!forall x, Decision (P x)} (l : list A) :
  List.filter (fun x => bool_decide (P x)) l = filter P l.
Proof.
  induction l as [|x l IH]; [reflexivity |].
  cbn [List.filter]. rewrite filter_cons, IH.
  destruct (decide (P x)) as [HP | HP].
  - now rewrite bool_decide_eq_true_2.
  - now rewrite bool_decide_eq_false_2.
Qed.

Lemma matching_tokens_size (qTok : list string) (dSet : gset string) :
  NoDup qTok ->
  size ((list_to_set qTok : gset string) ∩ dSet) =
  length (List.filter (fun t => bool_decide (t ∈ dSet)) qTok).
Proof.
  intros Hnd. rewrite (filter_bool_decide (fun t => t ∈ dSet)).
  rewrite <- (size_list_to_set (C := gset string) (filter (fun t => t ∈ dSet) qTok))
    by now apply NoDup_filter.
  f_equal. apply set_eq. intros t.
  rewrite elem_of_intersection, !elem_of_list_to_set, list_elem_of_filter. tauto.
Qed.

(** C4, as the code has it: for a query-token sequence without repeated
    tokens the exact-overlap signal of a document is the fraction of the
    distinct query tokens that are in the document's token set. *)
Theorem C4_exact_overlap_distinct_tokens
  (tokenize : string -> list string) (qTok : list string)
  (useExternalScore : bool) (qEmb : list R) (recencyHalfLife : R) (now : Z)
  (docs_length : nat) (gDF : gmap string nat) (avg : R) (d : Doc) :
  NoDup qTok ->
  exact_ (pre_of tokenize qTok useExternalScore qEmb recencyHalfLife now docs_length gDF avg d)
  = distinct_overlap qTok (list_to_set (tokenize (doc_chunk d))).
Proof.
  intros Hnd. cbn [pre_of exact_]. unfold exact_of, distinct_overlap.
  rewrite matching_tokens_size by exact Hnd.
  rewrite size_list_to_set by exact Hnd. reflexivity.
Qed.

Lemma C4_exact_overlap_distinct_tokens_witness :
  NoDup ["machine"; "learning"] /\
  exact_ (pre_of (tokenizer_of default_params) ["machine"; "learning"] false [] 60 0 3 ∅ 3
            (doc_of "deep learning networks"))
  = distinct_overlap ["machine"; "learning"]
      (list_to_set (tokenizer_of default_params (doc_chunk (doc_of "deep learning networks")))).
Proof.
  assert (Hnd : NoDup ["machine"; "learning"]).
  { apply (bool_decide_unpack (NoDup ["machine"; "learning"])). vm_compute. exact I. }
  split; [exact Hnd |].
  exact (C4_exact_overlap_distinct_tokens (tokenizer_of default_params)
           ["machine"; "learning"] false [] 60 0 3 ∅ 3 (doc_of "deep learning networks") Hnd).
Defined.

(** With the query "aa aa bb" and the document "aa cc" the code returns
    2/3: both occurrences of "aa" are counted, of three query tokens.  Of
    the two distinct query tokens one is in the document. *)
Lemma C4_repeated_query_token_counterexample :
  let tokenize := tokenizer_of default_params in
  let qTok := query_tokens default_params "aa aa bb" in
  let d := doc_of "aa cc" in
  exact_ (pre_of tokenize qTok false [] 60 0 1 (globalDF tokenize qTok [d]) 2 d) = 2 / 3 /\
  distinct_overlap qTok (list_to_set (tokenize (doc_chunk d))) = 1 / 2 /\
  exact_ (pre_of tokenize qTok false [] 60 0 1 (globalDF tokenize qTok [d]) 2 d)
  <> distinct_overlap qTok (list_to_set (tokenize (doc_chunk d))).
Proof.
  intros tokenize qTok d.
  assert (E1 : exact_ (pre_of tokenize qTok false [] 60 0 1
                         (globalDF tokenize qTok [d]) 2 d) = 2 / 3).
  { cbn [pre_of exact_]. unfold exact_of.
    assert (Hn : length (List.filter
                   (fun t => bool_decide
                               (t ∈ (list_to_set (tokenize (doc_chunk d)) : gset string)))
                   qTok) = 2%nat) by (vm_compute; reflexivity).
    assert (Hd : length qTok = 3%nat) by (vm_compute; reflexivity).
    rewrite Hn, Hd. cbn [INR]. lra. }
  assert (E2 : distinct_overlap qTok (list_to_set (tokenize (doc_chunk d))) = 1 / 2).
  { unfold distinct_overlap.
    assert (Hn : size ((list_to_set qTok : gset string)
                       ∩ list_to_set (tokenize (doc_chunk d))) = 1%nat)
      by (vm_compute; reflexivity).
    assert (Hd : size (list_to_set qTok : gset string) = 2%nat) by (vm_compute; reflexivity).
    rewrite Hn, Hd. cbn [INR]. lra. }
  split; [exact E1 |]. split; [exact E2 |]. rewrite E1, E2. lra.
Qed.

(** * C5: two runs on the same input *)

Section Runs.

Context (Number : string -> option R).

(** The three ways an invocation goes, whatever the clock and the fuel: it
    throws, it has nothing to rank, or it scores the candidates. *)
Lemma execute_try_cases (P : Param.t) (input : list (Item InputJson)) :
  (exists message, forall now fuel, execute_try Number now fuel P input = Throw message) \/
  (forall now fuel, execute_try Number now fuel P input = Return (Some [])) \/
  (exists q qEmb docs rest m,
     input = valid_input q qEmb docs rest /\
     forall now fuel,
       execute_try Number now fuel P input =
       Return (results ← scoring_loop now P m q qEmb docs fuel; Some (ranking P results))).
Proof.
  destruct input as [|[[[[q|] [qEmb|] [docs|]]|]] rest];
    try (left; eexists; intros; reflexivity).
  change ({| json := Some {| query := Some q; query_embedding := Some qEmb;
                             items := Some docs |} |} :: rest)
    with (valid_input q qEmb docs rest).
  destruct ((length (query_tokens P q) =? 0)%nat || (length docs =? 0)%nat) eqn:E.
  - right. left. intros now fuel. rewrite execute_try_valid, E. reflexivity.
  - destruct (model_for Number P) as [m|] eqn:Hm.
    + right. right. exists q, qEmb, docs, rest, m. split; [reflexivity |].
      intros now fuel. rewrite execute_try_valid, E.
      unfold model_for in Hm. destruct (Param.useModel P).
      * destruct (parse_weights Number (Param.modelWeights P))
          as [|a0 [|a1 [|a2 [|a3 [|a4 [|a5 l]]]]]]; try discriminate.
        injection Hm as <-. reflexivity.
      * injection Hm as <-. reflexivity.
    + left. exists bad_weights_message. intros now fuel. rewrite execute_try_valid, E.
      apply model_for_bad in Hm as [Hm Hlen]. rewrite Hm.
      destruct (parse_weights Number (Param.modelWeights P))
        as [|a0 [|a1 [|a2 [|a3 [|a4 [|a5 l]]]]]]; cbn in *; try reflexivity.
      congruence.
Qed.

(** More fuel does not change what a finished invocation returned. *)
Lemma execute_fuel_mono now fuel fuel' P input out :
  (fuel <= fuel')%nat ->
  execute Number now fuel P input = Some out ->
  execute Number now fuel' P input = Some out.
Proof.
  intros Hle. unfold execute.
  destruct (execute_try_cases P input)
    as [(message & H) | [H | (q & qEmb & docs & rest & m & -> & H)]];
    rewrite !H; try (intros Hout; exact Hout).
  unfold scoring_loop.
  destruct (batch_loop _ _ _ _ _ _ _ _ _ _ _ _ _ _ _ fuel _ _) as [results|] eqn:E;
    [| discriminate].
  rewrite (batch_loop_fuel_mono _ _ _ _ _ _ _ _ _ _ _ _ _ _ _ _ _ _ _ _ Hle E).
  intros Hout; exact Hout.
Qed.

(** With a positive batch size every invocation returns, within
    [length docs + 1] tests of the loop condition. *)
Lemma execute_terminates now fuel P input :
  (0 < batchSize_of P)%Z ->
  (length (default [] (candidates input)) < fuel)%nat ->
  exists out, execute Number now fuel P input = Some out.
Proof.
  intros Hb Hf. unfold execute.
  destruct (execute_try_cases P input)
    as [(message & H) | [H | (q & qEmb & docs & rest & m & -> & H)]];
    rewrite H; try (eexists; reflexivity).
  cbn in Hf.
  destruct (scoring_loop_terminates now P m q qEmb docs fuel Hb Hf) as (results & ->).
  eexists; reflexivity.
Qed.

(** With a negative batch size an invocation that reaches the batch loop
    never returns. *)
Lemma execute_diverges now fuel P q qEmb docs rest m :
  (batchSize_of P < 0)%Z ->
  query_tokens P q <> [] -> docs <> [] -> model_for Number P = Some m ->
  execute Number now fuel P (valid_input q qEmb docs rest) = None.
Proof.
  intros Hb Hq Hd Hm.
  rewrite (execute_scores Number now fuel P q qEmb docs rest m Hq Hd Hm).
  unfold scoring_loop. rewrite batch_loop_diverges; [reflexivity | exact Hb |].
  destruct docs; [congruence | cbn; lia].
Qed.

Lemma execute_clock now1 now2 fuel P input :
  no_timestamps input ->
  execute Number now1 fuel P input = execute Number now2 fuel P input.
Proof.
  intros Hts. unfold execute.
  destruct (execute_try_cases P input)
    as [(message & H) | [H | (q & qEmb & docs & rest & m & -> & H)]];
    rewrite !H; try reflexivity.
  unfold scoring_loop. cbn in Hts.
  now rewrite (batch_loop_now _ _ _ _ _ _ _ _ _ _ _ _ _ _ now1 now2 fuel Hts).
Qed.

End Runs.

(** C5, as the code has it: two finished invocations on the same input
    items with the same configuration return the same output when they read
    the same time from the clock, or when no candidate carries a time
    stamp. *)
Theorem C5_same_input_same_output
  (Number : string -> option R) (now1 now2 : Z) (fuel1 fuel2 : nat) (P : Param.t)
  (input : list (Item InputJson)) (out1 out2 : list OutItem) :
  now1 = now2 \/ no_timestamps input ->
  execute Number now1 fuel1 P input = Some out1 ->
  execute Number now2 fuel2 P input = Some out2 ->
  out1 = out2.
Proof.
  intros Hclock H1 H2.
  apply (execute_fuel_mono Number now1 fuel1 (Nat.max fuel1 fuel2)) in H1; [| lia].
  apply (execute_fuel_mono Number now2 fuel2 (Nat.max fuel1 fuel2)) in H2; [| lia].
  destruct Hclock as [-> | Hts].
  - congruence.
  - rewrite (execute_clock Number now1 now2 _ P input Hts) in H1. congruence.
Qed.

Lemma C5_same_input_same_output_witness :
  no_timestamps learning_input /\
  exists out1 out2,
    execute Decimal.Number 0 5 default_params learning_input = Some out1 /\
    execute Decimal.Number 86400000 5 default_params learning_input = Some out2 /\
    out1 = out2.
Proof.
  assert (Hts : no_timestamps learning_input) by (repeat constructor).
  split; [exact Hts |].
  destruct (learning_run 0) as (r1 & _ & H1).
  destruct (learning_run 86400000) as (r2 & _ & H2).
  eexists; eexists. split; [exact H1 |]. split; [exact H2 |].
  exact (C5_same_input_same_output Decimal.Number 0 86400000 5 5 default_params
           learning_input _ _ (or_intror Hts) H1 H2).
Defined.

(** A run whose batch size covers the candidates scores them in one batch. *)
Lemma execute_single_batch Number now fuel P q qEmb docs rest m :
  query_tokens P q <> [] -> docs <> [] ->
  model_for Number P = Some m ->
  (Z.of_nat (length docs) <= batchSize_of P)%Z ->
  execute Number now (S (S fuel)) P (valid_input q qEmb docs rest) =
  Some (ranking P
          (process_batch (Param.useModel P) m (weights_of P) (sumW_of (weights_of P))
             (Param.debug P) (normalizeMethod_of P) (tokenizer_of P) (query_tokens P q)
             (Param.useExternalScore P) qEmb (recencyHalfLife_of P) now docs
             (globalDF (tokenizer_of P) (query_tokens P q) docs) docs)).
Proof.
  intros Hq Hd Hm Hb. rewrite (execute_scores Number now _ P q qEmb docs rest m Hq Hd Hm).
  unfold scoring_loop. now rewrite batch_loop_single.
Qed.

Lemma or_default_nonzero (x d : R) : x <> 0 -> or_default x d = x.
Proof. intros H. unfold or_default. destruct (Req_dec_T x 0); [contradiction | reflexivity]. Qed.

Lemma or_default_zero (d : R) : or_default 0 d = d.
Proof. unfold or_default. destruct (Req_dec_T 0 0); [reflexivity | contradiction]. Qed.

Lemma ranking_singleton (P : Param.t) (s : Scored) :
  (0 < topN_of P)%Z -> ranking P [s] = [Reranked s].
Proof.
  intros H. unfold ranking. cbn [sort fold_right sort_insert].
  rewrite slice_from_0. cbn [length].
  destruct (topN_of P <? 0)%Z eqn:E; [apply Z.ltb_lt in E; lia |].
  replace (Z.to_nat (Z.min (topN_of P) (Z.of_nat 1))) with 1%nat by lia.
  reflexivity.
Qed.

Lemma final_of_linear useModel W norm p :
  final_of useModel None W norm p =
  sem p * W_sem W + norm (bm25 p) * W_lex W + exact_ p * W_exact W + rec p * W_time W.
Proof. unfold final_of. destruct useModel; reflexivity. Qed.

Lemma final_of_logistic m W norm p :
  final_of true (Some m) W norm p =
  1 / (1 + exp (- (sem p * wSem m + norm (bm25 p) * wBm25 m + exact_ p * wExact m
                   + rec p * wRec m + bias m))).
Proof. reflexivity. Qed.

(** One candidate stamped with the epoch, scored at the epoch and one day
    later: the recency signal, and with it [rerank_score], differs. *)
Lemma C5_clock_counterexample :
  exists out1 out2,
    execute Decimal.Number 0 5 default_params dated_input = Some out1 /\
    execute Decimal.Number 86400000 5 default_params dated_input = Some out2 /\
    out1 <> out2.
Proof.
  unfold dated_input.
  eexists; eexists. split; [| split].
  - apply (execute_single_batch Decimal.Number 0 3 default_params _ _ _ _ None);
      [vm_compute; discriminate | discriminate | reflexivity | vm_compute; discriminate].
  - apply (execute_single_batch Decimal.Number 86400000 3 default_params _ _ _ _ None);
      [vm_compute; discriminate | discriminate | reflexivity | vm_compute; discriminate].
  - intros H.
    apply (f_equal (fun o => match o with Reranked s :: _ => rerank_score s | _ => 0 end)) in H.
    unfold process_batch in H. cbn [List.map] in H.
    rewrite !ranking_singleton in H by reflexivity.
    cbn [out_of rerank_score] in H. rewrite !final_of_linear in H.
    change (normalizeMethod_of default_params) with "sigmoid" in H.
    change (normBM25 "sigmoid" _) with norm_sigmoid in H.
    cbn [pre_of sem bm25 exact_ rec] in H.
    unfold rec_of, days_of in H.
    change (doc_time (doc_at "machine learning basics" 0)) with (Some 0%Z) in H.
    change (W_time (weights_of default_params)) with (or_default 0.05 0.05) in H.
    change (recencyHalfLife_of default_params) with (or_default 60 60) in H.
    rewrite !or_default_nonzero in H by lra.
    match type of H with
    | ?a + ?b + ?c + exp ?x * _ = _ + _ + _ + exp ?y * _ =>
        assert (E : exp x = exp y) by lra; apply exp_inv in E
    end.
    lra.
Qed.

(** * C6: term frequency and the BM25 contribution *)

Lemma k1_b_positive : 0 < k1 /\ 0 < b < 1.
Proof. unfold k1, b. lra. Qed.

(** The contribution grows with the term frequency as long as the inverse
    document frequency is not negative. *)
Lemma bm25_term_monotone (docs_length : nat) (gDF : gmap string nat) (t : string)
  (tf tf' : nat) (len avg : R) :
  0 <= idf docs_length gDF t -> 0 <= len / avg -> (tf <= tf')%nat ->
  bm25_term docs_length gDF t tf len avg <= bm25_term docs_length gDF t tf' len avg.
Proof.
  intros Hidf Hratio Htf. unfold bm25_term.
  apply Rmult_le_compat_l; [exact Hidf |].
  destruct k1_b_positive as (Hk & Hb0 & Hb1).
  set (c := k1 * (1 - b + b * (len / avg))).
  assert (Hc : 0 < c).
  { unfold c. apply Rmult_lt_0_compat; [exact Hk |]. nra. }
  assert (Hx : 0 <= INR tf) by apply pos_INR.
  assert (Hy : INR tf <= INR tf') by now apply le_INR.
  apply Rmult_le_reg_r with (r := (INR tf + c) * (INR tf' + c)); [nra |].
  replace (INR tf * (k1 + 1) / (INR tf + c) * ((INR tf + c) * (INR tf' + c)))
    with (INR tf * (k1 + 1) * (INR tf' + c)) by (field; lra).
  replace (INR tf' * (k1 + 1) / (INR tf' + c) * ((INR tf + c) * (INR tf' + c)))
    with (INR tf' * (k1 + 1) * (INR tf + c)) by (field; lra).
  assert (Hprod : 0 <= (k1 + 1) * c * (INR tf' - INR tf)).
  { apply Rmult_le_pos; [apply Rmult_le_pos |]; lra. }
  lra.
Qed.

Lemma idf_nonneg (docs_length : nat) (gDF : gmap string nat) (t : string) :
  (or_count (gDF !! t) 0 <= docs_length)%nat -> 0 <= idf docs_length gDF t.
Proof.
  intros H. unfold idf.
  assert (H1 : (1 <= or_count (gDF !! t) 1 <= docs_length + 1)%nat).
  { destruct (gDF !! t) as [[|n]|]; cbn in *; lia. }
  destruct H1 as [H1 H2]. apply le_INR in H1, H2. cbn [INR] in H1.
  rewrite <- ln_1.
  destruct (Req_dec_T 1 (INR (docs_length + 1) / INR (or_count (gDF !! t) 1)))
    as [<- | Hne]; [lra |].
  left. apply ln_increasing; [lra |].
  assert (1 <= INR (docs_length + 1) / INR (or_count (gDF !! t) 1)); [| lra].
  apply Rmult_le_reg_r with (r := INR (or_count (gDF !! t) 1)); [lra |].
  replace (INR (docs_length + 1) / INR (or_count (gDF !! t) 1)
           * INR (or_count (gDF !! t) 1))
    with (INR (docs_length + 1)) by (field; lra).
  lra.
Qed.

Lemma document_frequency_le (tokenize : string -> list string) (docs : list Doc) (t : string) :
  (document_frequency tokenize docs t <= length docs)%nat.
Proof. unfold document_frequency. apply filter_length_le. Qed.

Lemma occurrences_NoDup_le (qTok : list string) (t : string) :
  NoDup qTok -> (occurrences t qTok <= 1)%nat.
Proof.
  intros Hnd. destruct (decide (t ∈ qTok)) as [Hin | Hnin].
  - now rewrite occurrences_NoDup.
  - unfold occurrences. clear Hnd.
    induction qTok as [|u qTok IH]; cbn [List.filter length]; [lia |].
    apply not_elem_of_cons in Hnin as [Hne Hnin].
    rewrite bool_decide_eq_false_2 by congruence. apply IH, Hnin.
Qed.

(** On the map the code builds for a query without repeated tokens the
    contribution of a query term never decreases with its term frequency. *)
Lemma bm25_term_monotone_distinct_query (tokenize : string -> list string)
  (qTok : list string) (docs : list Doc) (t : string) (tf tf' : nat) (len avg : R) :
  NoDup qTok -> 0 <= len / avg -> (tf <= tf')%nat ->
  bm25_term (length docs) (globalDF tokenize qTok docs) t tf len avg
  <= bm25_term (length docs) (globalDF tokenize qTok docs) t tf' len avg.
Proof.
  intros Hnd Hratio Htf. apply bm25_term_monotone; [| exact Hratio | exact Htf].
  apply idf_nonneg. rewrite globalDF_count.
  pose proof (occurrences_NoDup_le qTok t Hnd).
  pose proof (document_frequency_le tokenize docs t). nia.
Qed.

Lemma ln_two_thirds_negative : ln ((1 + 1) / (1 + 1 + 1)) < 0.
Proof. rewrite <- ln_1. apply ln_increasing; lra. Qed.

(** C6 at the query "aa aa aa" with one candidate: the map built by the
    code holds 3 for "aa" in a corpus of one document, the inverse document
    frequency is ln(2/3), and raising the term frequency from 1 (candidate
    "aa bb") to 2 (candidate "aa aa"), with the same length, average length,
    corpus size and map, lowers the contribution of the term and the BM25
    score of the candidate. *)
Theorem C6_inflated_frequency_reverses_monotonicity :
  let tokenize := tokenizer_of default_params in
  let qTok := query_tokens default_params "aa aa aa" in
  let d1 := doc_of "aa bb" in
  let d2 := doc_of "aa aa" in
  let gDF := globalDF tokenize qTok [d1] in
  globalDF tokenize qTok [d2] = gDF /\
  gDF !! "aa" = Some 3%nat /\
  length (tokenize (doc_chunk d1)) = length (tokenize (doc_chunk d2)) /\
  avgLen tokenize [d1] = avgLen tokenize [d2] /\
  tfMap (tokenize (doc_chunk d1)) !! "aa" = Some 1%nat /\
  tfMap (tokenize (doc_chunk d2)) !! "aa" = Some 2%nat /\
  bm25_term 1 gDF "aa" 2 2 (avgLen tokenize [d2])
  < bm25_term 1 gDF "aa" 1 2 (avgLen tokenize [d1]) /\
  bm25_of qTok 1 gDF (tokenize (doc_chunk d2)) (avgLen tokenize [d2])
  < bm25_of qTok 1 gDF (tokenize (doc_chunk d1)) (avgLen tokenize [d1]).
Proof.
  intros tokenize qTok d1 d2 gDF.
  assert (Hg : gDF !! "aa" = Some 3%nat) by (vm_compute; reflexivity).
  assert (Ha1 : avgLen tokenize [d1] = 2).
  { unfold avgLen.
    replace (fold_left (fun s d => (s + length (tokenize (doc_chunk d)))%nat) [d1] 0%nat)
      with 2%nat by (vm_compute; reflexivity).
    cbn. lra. }
  assert (Ha2 : avgLen tokenize [d2] = 2).
  { unfold avgLen.
    replace (fold_left (fun s d => (s + length (tokenize (doc_chunk d)))%nat) [d2] 0%nat)
      with 2%nat by (vm_compute; reflexivity).
    cbn. lra. }
  assert (Ht1 : tfMap (tokenize (doc_chunk d1)) !! "aa" = Some 1%nat)
    by (vm_compute; reflexivity).
  assert (Ht2 : tfMap (tokenize (doc_chunk d2)) !! "aa" = Some 2%nat)
    by (vm_compute; reflexivity).
  assert (Hterm1 : bm25_term 1 gDF "aa" 1 2 2 = ln ((1 + 1) / (1 + 1 + 1)) * 1).
  { unfold bm25_term, idf. rewrite Hg. unfold k1, b. cbn. f_equal. lra. }
  assert (Hterm2 : bm25_term 1 gDF "aa" 2 2 2 = ln ((1 + 1) / (1 + 1 + 1)) * (11 / 8)).
  { unfold bm25_term, idf. rewrite Hg. unfold k1, b. cbn. f_equal. lra. }
  pose proof ln_two_thirds_negative as Hln.
  split; [vm_compute; reflexivity |]. split; [exact Hg |].
  split; [vm_compute; reflexivity |]. split; [congruence |].
  split; [exact Ht1 |]. split; [exact Ht2 |].
  rewrite Ha1, Ha2. split; [rewrite Hterm1, Hterm2; lra |].
  unfold bm25_of.
  replace (length (tokenize (doc_chunk d1))) with 2%nat by (vm_compute; reflexivity).
  replace (length (tokenize (doc_chunk d2))) with 2%nat by (vm_compute; reflexivity).
  replace qTok with ["aa"; "aa"; "aa"] by (vm_compute; reflexivity).
  cbn [fold_left]. unfold bm25_step. rewrite Ht1, Ht2.
  cbn [or_count Nat.eqb]. change (INR 2) with 2.
  rewrite Hterm1, Hterm2. lra.
Qed.

(** * C7: the range of the normalizers *)

Lemma norm_sigmoid_range (v : R) : 0 < norm_sigmoid v < 1.
Proof.
  unfold norm_sigmoid. pose proof (exp_pos (- v)) as He.
  split.
  - apply Rdiv_lt_0_compat; lra.
  - apply Rmult_lt_reg_r with (r := 1 + exp (- v)); [lra |].
    replace (1 / (1 + exp (- v)) * (1 + exp (- v))) with 1 by (field; lra). lra.
Qed.

Lemma fold_Rmin_le (l : list R) (a : R) :
  fold_left Rmin l a <= a /\ Forall (fun x => fold_left Rmin l a <= x) l.
Proof.
  revert a. induction l as [|x l IH]; intros a; cbn [fold_left].
  - split; [lra | constructor].
  - destruct (IH (Rmin a x)) as [H1 H2].
    pose proof (Rmin_l a x). pose proof (Rmin_r a x).
    split; [lra |]. constructor; [lra | exact H2].
Qed.

Lemma fold_Rmax_ge (l : list R) (a : R) :
  a <= fold_left Rmax l a /\ Forall (fun x => x <= fold_left Rmax l a) l.
Proof.
  revert a. induction l as [|x l IH]; intros a; cbn [fold_left].
  - split; [lra | constructor].
  - destruct (IH (Rmax a x)) as [H1 H2].
    pose proof (Rmax_l a x). pose proof (Rmax_r a x).
    split; [lra |]. constructor; [lra | exact H2].
Qed.

Lemma Math_min_le (vals : list R) (v : R) : v ∈ vals -> Math_min vals <= v.
Proof.
  destruct vals as [|a l]; [intros H; inversion H |].
  intros H. cbn [Math_min]. destruct (fold_Rmin_le l a) as [H1 H2].
  apply elem_of_cons in H as [-> | H]; [exact H1 |].
  rewrite Forall_forall in H2. apply H2, H.
Qed.

Lemma Math_max_ge (vals : list R) (v : R) : v ∈ vals -> v <= Math_max vals.
Proof.
  destruct vals as [|a l]; [intros H; inversion H |].
  intros H. cbn [Math_max]. destruct (fold_Rmax_ge l a) as [H1 H2].
  apply elem_of_cons in H as [-> | H]; [exact H1 |].
  rewrite Forall_forall in H2. apply H2, H.
Qed.

Lemma norm_minmax_range (vals : list R) (v : R) :
  v ∈ vals -> 0 <= norm_minmax vals v <= 1.
Proof.
  intros Hv. unfold norm_minmax.
  pose proof (Math_min_le vals v Hv) as Hmin.
  pose proof (Math_max_ge vals v Hv) as Hmax.
  destruct (Req_dec_T (Math_max vals) (Math_min vals)) as [E | Hne]; [lra |].
  assert (Hpos : 0 < Math_max vals - Math_min vals) by lra.
  split.
  - apply Rmult_le_reg_r with (r := Math_max vals - Math_min vals); [exact Hpos |].
    replace ((v - Math_min vals) / (Math_max vals - Math_min vals)
             * (Math_max vals - Math_min vals))
      with (v - Math_min vals) by (field; lra).
    lra.
  - apply Rmult_le_reg_r with (r := Math_max vals - Math_min vals); [exact Hpos |].
    replace ((v - Math_min vals) / (Math_max vals - Math_min vals)
             * (Math_max vals - Math_min vals))
      with (v - Math_min vals) by (field; lra).
    lra.
Qed.

Lemma normBM25_cases (normalizeMethod : string) (pre : list Pre) :
  (normalizeMethod = "minmax" /\
   normBM25 normalizeMethod pre = norm_minmax (List.map bm25 pre)) \/
  (normalizeMethod <> "minmax" /\ normBM25 normalizeMethod pre = norm_sigmoid).
Proof.
  unfold normBM25. destruct (String.eqb_spec normalizeMethod "minmax") as [-> | Hne].
  - left. split; reflexivity.
  - right. split; [exact Hne | reflexivity].
Qed.

(** C7, as the code has it: the sigmoid normalizer maps every raw value
    into [0,1]; the normalizer of a batch, whichever method is configured,
    maps the raw BM25 of every document of that batch into [0,1]; and the
    min-max normalizer of a batch whose largest raw BM25 equals its smallest
    returns 0. *)
Theorem C7_normalizers_range
  (normalizeMethod : string) (pre : list Pre) (p : Pre) (v : R) :
  p ∈ pre ->
  0 <= norm_sigmoid v <= 1 /\
  0 <= normBM25 normalizeMethod pre (bm25 p) <= 1 /\
  (Math_max (List.map bm25 pre) = Math_min (List.map bm25 pre) ->
   normBM25 "minmax" pre v = 0 /\ normBM25 "minmax" pre (bm25 p) = 0).
Proof.
  intros Hp. split; [| split].
  - pose proof (norm_sigmoid_range v). lra.
  - destruct (normBM25_cases normalizeMethod pre) as [[_ ->] | [_ ->]].
    + apply norm_minmax_range. apply list_elem_of_fmap. exists p. split; [reflexivity | exact Hp].
    + pose proof (norm_sigmoid_range (bm25 p)). lra.
  - intros E. change (normBM25 "minmax" pre) with (norm_minmax (List.map bm25 pre)).
    unfold norm_minmax.
    destruct (Req_dec_T (Math_max (List.map bm25 pre)) (Math_min (List.map bm25 pre)));
      [split; reflexivity | contradiction].
Qed.

Lemma Rmin_0_1 : Rmin 0 1 = 0.
Proof. unfold Rmin. destruct (Rle_dec 0 1); lra. Qed.

Lemma Rmax_0_1 : Rmax 0 1 = 1.
Proof. unfold Rmax. destruct (Rle_dec 0 1); lra. Qed.

Lemma spread_batch_minmax (v : R) : normBM25 "minmax" spread_batch v = v.
Proof.
  change (normBM25 "minmax" spread_batch v) with (norm_minmax [0; 1] v).
  unfold norm_minmax, Math_min, Math_max. cbn [fold_left].
  rewrite Rmin_0_1, Rmax_0_1.
  destruct (Req_dec_T 1 0); [lra | field].
Qed.

Lemma C7_normalizers_range_witness :
  let p0 := {| it := doc_of "no match"; sem := 0; bm25 := 0; exact_ := 0; rec := 1 |} in
  let p1 := {| it := doc_of "a match"; sem := 0; bm25 := 1; exact_ := 1; rec := 1 |} in
  let f := {| it := doc_of "same text"; sem := 0; bm25 := 1; exact_ := 0; rec := 1 |} in
  (p1 ∈ spread_batch /\
   normBM25 "minmax" spread_batch (bm25 p0) = 0 /\
   normBM25 "minmax" spread_batch (bm25 p1) = 1 /\
   0 <= norm_sigmoid 3 <= 1 /\
   0 <= normBM25 "minmax" spread_batch (bm25 p1) <= 1) /\
  (f ∈ flat_batch /\
   Math_max (List.map bm25 flat_batch) = Math_min (List.map bm25 flat_batch) /\
   0 <= normBM25 "sigmoid" flat_batch (bm25 f) <= 1 /\
   normBM25 "minmax" flat_batch 3 = 0 /\ normBM25 "minmax" flat_batch (bm25 f) = 0).
Proof.
  intros p0 p1 f. split.
  - assert (H1 : p1 ∈ spread_batch) by (apply list_elem_of_further, list_elem_of_here).
    split; [exact H1 |].
    split; [apply spread_batch_minmax |]. split; [apply spread_batch_minmax |].
    destruct (C7_normalizers_range "minmax" spread_batch p1 3 H1) as (Hs & Hm & _).
    split; [exact Hs | exact Hm].
  - assert (Hf : f ∈ flat_batch) by apply list_elem_of_here.
    assert (E : Math_max (List.map bm25 flat_batch) = Math_min (List.map bm25 flat_batch)).
    { cbn. unfold Rmax, Rmin. destruct (Rle_dec 1 1); lra. }
    split; [exact Hf |]. split; [exact E |].
    destruct (C7_normalizers_range "sigmoid" flat_batch f 3 Hf) as (_ & Hm & Hz).
    split; [exact Hm | exact (Hz E)].
Defined.

(** Built from a batch whose raw scores are 0 and 1, the min-max normalizer
    is [v => (v - 0) / (1 - 0)]: the raw value 5, which is not a score of
    the batch, is mapped to 5. *)
Lemma C7_value_outside_batch_counterexample :
  List.map bm25 spread_batch = [0; 1] /\
  normBM25 "minmax" spread_batch 5 = 5 /\
  ~ (0 <= normBM25 "minmax" spread_batch 5 <= 1).
Proof.
  split; [reflexivity |]. split; [apply spread_batch_minmax |].
  rewrite spread_batch_minmax. lra.
Qed.

(** * C8: the learned model *)

(** C8, as the code has it: with the learned model enabled, query tokens
    and candidates, a weights string that does not yield five numbers ends
    the invocation with the error record, and one that yields five numbers
    makes them the coefficients (sem, bm25, exact, rec, bias) of the
    logistic score of every candidate. *)
Theorem C8_model_weights
  (Number : string -> option R) (now : Z) (fuel : nat) (P : Param.t)
  (q : string) (qEmb : list R) (docs : list Doc) (rest : list (Item InputJson)) :
  Param.useModel P = true ->
  query_tokens P q <> [] -> docs <> [] ->
  (length (parse_weights Number (Param.modelWeights P)) <> 5%nat ->
   execute Number now fuel P (valid_input q qEmb docs rest) =
   Some [ErrorItem true bad_weights_message]) /\
  (forall a0 a1 a2 a3 a4,
     parse_weights Number (Param.modelWeights P) = [a0; a1; a2; a3; a4] ->
     let m := {| wSem := a0; wBm25 := a1; wExact := a2; wRec := a3; bias := a4 |} in
     execute Number now fuel P (valid_input q qEmb docs rest) =
     (results ← scoring_loop now P (Some m) q qEmb docs fuel; Some (ranking P results)) /\
     (forall norm p,
        final_of (Param.useModel P) (Some m) (weights_of P) norm p =
        1 / (1 + exp (- (sem p * a0 + norm (bm25 p) * a1 + exact_ p * a2
                         + rec p * a3 + a4)))) /\
     ((0 < batchSize_of P)%Z -> (length docs < fuel)%nat ->
      exists results,
        scoring_loop now P (Some m) q qEmb docs fuel = Some results /\
        length results = length docs)).
Proof.
  intros Hm Hq Hd. split.
  - intros Hlen. now apply execute_bad_model.
  - intros a0 a1 a2 a3 a4 Hparse m. split; [| split].
    + apply execute_scores; [exact Hq | exact Hd |].
      unfold model_for. now rewrite Hm, Hparse.
    + intros norm p. rewrite Hm. apply final_of_logistic.
    + intros Hb Hf.
      destruct (scoring_loop_terminates now P (Some m) q qEmb docs fuel Hb Hf)
        as (results & Hloop).
      exists results. split; [exact Hloop |]. eapply scoring_loop_length, Hloop.
Qed.

Lemma five_weights_parsed :
  exists a0 a1 a2 a3 a4,
    parse_weights Decimal.Number (Param.modelWeights five_weights) = [a0; a1; a2; a3; a4] /\
    a0 = 0.8 /\ a1 = 0.5 /\ a2 = 0.3 /\ a3 = 0.1 /\ a4 = -0.2.
Proof.
  do 5 eexists. split; [reflexivity |]. cbn.
  repeat match goal with
         | |- context [IZR ?z] =>
             let z' := eval vm_compute in z in progress change (IZR z) with (IZR z')
         end.
  repeat split; lra.
Qed.

Lemma C8_model_weights_witness :
  (Param.useModel five_weights = true /\
   query_tokens five_weights "Machine Learning" <> [] /\ three_docs <> []) /\
  (Param.useModel two_weights = true /\
   execute Decimal.Number 0 5 two_weights learning_input =
   Some [ErrorItem true bad_weights_message]) /\
  exists m results,
    execute Decimal.Number 0 5 five_weights learning_input =
    (results ← scoring_loop 0 five_weights (Some m) "Machine Learning" [] three_docs 5;
     Some (ranking five_weights results)) /\
    scoring_loop 0 five_weights (Some m) "Machine Learning" [] three_docs 5 = Some results /\
    length results = 3%nat.
Proof.
  assert (Hq : query_tokens five_weights "Machine Learning" <> [])
    by (vm_compute; discriminate).
  assert (Hq' : query_tokens two_weights "Machine Learning" <> [])
    by (vm_compute; discriminate).
  assert (Hd : three_docs <> []) by discriminate.
  split; [split; [reflexivity | split; [exact Hq | exact Hd]] |]. split.
  - split; [reflexivity |].
    apply (C8_model_weights Decimal.Number 0 5 two_weights "Machine Learning" [] three_docs []
             eq_refl Hq' Hd).
    rewrite two_weights_parsed. lia.
  - destruct five_weights_parsed as (a0 & a1 & a2 & a3 & a4 & Hparse & _).
    destruct (C8_model_weights Decimal.Number 0 5 five_weights "Machine Learning" []
                three_docs [] eq_refl Hq Hd) as [_ H].
    destruct (H a0 a1 a2 a3 a4 Hparse) as (Hexec & _ & Hloop).
    destruct Hloop as (results & Hloop & Hlen); [reflexivity | cbn; lia |].
    eexists; exists results. split; [exact Hexec |]. split; [exact Hloop | exact Hlen].
Defined.

(** Enabled model, two weights, and a query of stop words only: the guard
    returns the empty result before the weights are parsed. *)
Lemma C8_no_query_tokens_counterexample :
  Param.useModel two_weights = true /\
  length (parse_weights Decimal.Number (Param.modelWeights two_weights)) <> 5%nat /\
  query_tokens two_weights "the a" = [] /\
  execute Decimal.Number 0 5 two_weights (valid_input "the a" [] three_docs []) = Some [] /\
  forall message,
    execute Decimal.Number 0 5 two_weights (valid_input "the a" [] three_docs [])
    <> Some [ErrorItem true message].
Proof.
  assert (Hq : query_tokens two_weights "the a" = []) by (vm_compute; reflexivity).
  assert (H : execute Decimal.Number 0 5 two_weights
                (valid_input "the a" [] three_docs []) = Some []).
  { apply execute_short_circuit. left. exact Hq. }
  split; [reflexivity |]. split; [rewrite two_weights_parsed; lia |].
  split; [exact Hq |]. split; [exact H |]. intros message. rewrite H. discriminate.
Qed.

(** * C9: a configured zero is replaced by the default *)

Lemma or_default_same (d : R) : or_default d d = d.
Proof. unfold or_default. destruct (Req_dec_T d 0); reflexivity. Qed.

(** [execute] reads the numeric parameters only through their defaulted
    values. *)
Lemma execute_params_ext Number now fuel (P P' : Param.t) input :
  topN_of P = topN_of P' ->
  batchSize_of P = batchSize_of P' ->
  weights_of P = weights_of P' ->
  recencyHalfLife_of P = recencyHalfLife_of P' ->
  or_defaultZ (Param.minTokenLength P) 2 = or_defaultZ (Param.minTokenLength P') 2 ->
  normalizeMethod_of P = normalizeMethod_of P' ->
  Param.useExternalScore P = Param.useExternalScore P' ->
  Param.customStopwords P = Param.customStopwords P' ->
  Param.useModel P = Param.useModel P' ->
  Param.modelWeights P = Param.modelWeights P' ->
  Param.debug P = Param.debug P' ->
  execute Number now fuel P input = execute Number now fuel P' input.
Proof.
  intros H1 H2 H3 H4 H5 H6 H7 H8 H9 H10 H11.
  unfold execute, execute_try.
  fold (topN_of P) (topN_of P') (batchSize_of P) (batchSize_of P')
       (recencyHalfLife_of P) (recencyHalfLife_of P')
       (normalizeMethod_of P) (normalizeMethod_of P').
  rewrite H1, H2, H3, H4, H5, H6, H7, H8, H9, H10, H11. reflexivity.
Qed.

(** A value read through [x || d] with a non-zero default is not 0. *)
Lemma or_default_nonzero_default (x d : R) : d <> 0 -> or_default x d <> 0.
Proof. intros H. unfold or_default. destruct (Req_dec_T x 0); assumption. Qed.

(** C9: each of the eight numeric parameters read through
    [Number(...) || default], when configured with 0, takes its documented
    default: [topN] 5, [batchSize] 200, [recencyHalfLife] 60,
    [minTokenLength] 2 and the weights 0.7, 0.25, 0.10 and 0.05.  In four
    parts, the input and all other parameters being arbitrary:
    - the value [execute] works with, for a parameter configured with 0, is
      that default;
    - whatever is configured, no value [execute] works with is 0: neither a
      weight of 0 nor a [topN] of 0 can be selected;
    - only a 0 is replaced: any other configured value is the one [execute]
      works with;
    - on an input that passes the type checks, the invocation configured
      with 0 everywhere is the guard, the model parsing, the batch loop and
      the ranking run with 5, 200, 60, 2, 0.7, 0.25, 0.10 and 0.05;
    - for each parameter, the invocation configured with 0 returns what the
      invocation configured with the default returns. *)
Theorem C9_zero_is_replaced_by_default
  (Number : string -> option R) (now : Z) (fuel : nat) (input : list (Item InputJson))
  (q : string) (qEmb : list R) (docs : list Doc) (rest : list (Item InputJson))
  (topN batchSize minTokenLength : Z)
  (semWeight lexWeight exactWeight timeWeight recencyHalfLife : R)
  (useExternalScore useModel debug : bool)
  (normalizeMethod customStopwords modelWeights : string) :
  let conf topN batchSize semWeight lexWeight exactWeight timeWeight recencyHalfLife
           minTokenLength :=
    {| Param.topN := topN; Param.batchSize := batchSize;
       Param.semWeight := semWeight; Param.lexWeight := lexWeight;
       Param.exactWeight := exactWeight; Param.timeWeight := timeWeight;
       Param.useExternalScore := useExternalScore;
       Param.recencyHalfLife := recencyHalfLife;
       Param.minTokenLength := minTokenLength;
       Param.normalizeMethod := normalizeMethod;
       Param.customStopwords := customStopwords;
       Param.useModel := useModel; Param.modelWeights := modelWeights;
       Param.debug := debug |} in
  let run topN batchSize semWeight lexWeight exactWeight timeWeight recencyHalfLife
          minTokenLength :=
    execute Number now fuel
      (conf topN batchSize semWeight lexWeight exactWeight timeWeight recencyHalfLife
         minTokenLength) input in
  let configured :=
    conf topN batchSize semWeight lexWeight exactWeight timeWeight recencyHalfLife
      minTokenLength in
  (* a configured 0 reads as the default *)
  (topN_of
     (conf 0%Z batchSize semWeight lexWeight exactWeight timeWeight recencyHalfLife
        minTokenLength) = 5%Z /\
   batchSize_of
     (conf topN 0%Z semWeight lexWeight exactWeight timeWeight recencyHalfLife
        minTokenLength) = 200%Z /\
   W_sem (weights_of
     (conf topN batchSize 0 lexWeight exactWeight timeWeight recencyHalfLife
        minTokenLength)) = 0.7 /\
   W_lex (weights_of
     (conf topN batchSize semWeight 0 exactWeight timeWeight recencyHalfLife
        minTokenLength)) = 0.25 /\
   W_exact (weights_of
     (conf topN batchSize semWeight lexWeight 0 timeWeight recencyHalfLife
        minTokenLength)) = 0.10 /\
   W_time (weights_of
     (conf topN batchSize semWeight lexWeight exactWeight 0 recencyHalfLife
        minTokenLength)) = 0.05 /\
   recencyHalfLife_of
     (conf topN batchSize semWeight lexWeight exactWeight timeWeight 0
        minTokenLength) = 60 /\
   tokenizer_of
     (conf topN batchSize semWeight lexWeight exactWeight timeWeight recencyHalfLife
        0%Z) = tok 2 (STOP customStopwords))
  /\
  (* no configuration selects a 0 *)
  (topN_of configured <> 0%Z /\
   batchSize_of configured <> 0%Z /\
   W_sem (weights_of configured) <> 0 /\
   W_lex (weights_of configured) <> 0 /\
   W_exact (weights_of configured) <> 0 /\
   W_time (weights_of configured) <> 0 /\
   recencyHalfLife_of configured <> 0 /\
   or_defaultZ minTokenLength 2 <> 0%Z /\
   tokenizer_of configured = tok (or_defaultZ minTokenLength 2) (STOP customStopwords))
  /\
  (* any other configured value is kept *)
  ((topN <> 0%Z -> topN_of configured = topN) /\
   (batchSize <> 0%Z -> batchSize_of configured = batchSize) /\
   (semWeight <> 0 -> W_sem (weights_of configured) = semWeight) /\
   (lexWeight <> 0 -> W_lex (weights_of configured) = lexWeight) /\
   (exactWeight <> 0 -> W_exact (weights_of configured) = exactWeight) /\
   (timeWeight <> 0 -> W_time (weights_of configured) = timeWeight) /\
   (recencyHalfLife <> 0 -> recencyHalfLife_of configured = recencyHalfLife) /\
   (minTokenLength <> 0%Z ->
    tokenizer_of configured = tok minTokenLength (STOP customStopwords)))
  /\
  (* the invocation configured with 0 everywhere *)
  execute_try Number now fuel (conf 0%Z 0%Z 0 0 0 0 0 0%Z) (valid_input q qEmb docs rest) =
  (let tokenize := tok 2 (STOP customStopwords) in
   let qTok := tokenize (Str.trim (Str.toLowerCase q)) in
   let W := {| W_sem := 0.7; W_lex := 0.25; W_exact := 0.10; W_time := 0.05 |} in
   if (length qTok =? 0)%nat || (length docs =? 0)%nat then Return (Some [])
   else
     model ←
       (if useModel
        then m ← model_of (parse_weights Number modelWeights); Return (Some m)
        else Return None);
     Return
       (results ← batch_loop useModel model W (0.7 + 0.25 + 0.10 + 0.05) debug
                    (if Str.truthy normalizeMethod then normalizeMethod else "sigmoid")
                    tokenize qTok useExternalScore qEmb 60 now docs
                    (globalDF tokenize qTok docs) 200 fuel 0%Z [];
        Some (List.map Reranked (slice (sort compareFn results) 0 5))))
  /\
  (* parameter by parameter, on any input *)
  (run 0%Z batchSize semWeight lexWeight exactWeight timeWeight recencyHalfLife minTokenLength
   = run 5%Z batchSize semWeight lexWeight exactWeight timeWeight recencyHalfLife minTokenLength
   /\
   run topN 0%Z semWeight lexWeight exactWeight timeWeight recencyHalfLife minTokenLength
   = run topN 200%Z semWeight lexWeight exactWeight timeWeight recencyHalfLife minTokenLength
   /\
   run topN batchSize 0 lexWeight exactWeight timeWeight recencyHalfLife minTokenLength
   = run topN batchSize 0.7 lexWeight exactWeight timeWeight recencyHalfLife minTokenLength
   /\
   run topN batchSize semWeight 0 exactWeight timeWeight recencyHalfLife minTokenLength
   = run topN batchSize semWeight 0.25 exactWeight timeWeight recencyHalfLife minTokenLength
   /\
   run topN batchSize semWeight lexWeight 0 timeWeight recencyHalfLife minTokenLength
   = run topN batchSize semWeight lexWeight 0.10 timeWeight recencyHalfLife minTokenLength
   /\
   run topN batchSize semWeight lexWeight exactWeight 0 recencyHalfLife minTokenLength
   = run topN batchSize semWeight lexWeight exactWeight 0.05 recencyHalfLife minTokenLength
   /\
   run topN batchSize semWeight lexWeight exactWeight timeWeight 0 minTokenLength
   = run topN batchSize semWeight lexWeight exactWeight timeWeight 60 minTokenLength
   /\
   run topN batchSize semWeight lexWeight exactWeight timeWeight recencyHalfLife 0%Z
   = run topN batchSize semWeight lexWeight exactWeight timeWeight recencyHalfLife 2%Z).
Proof.
  intros conf run configured. unfold run, configured, conf.
  split; [| split; [| split; [| split]]].
  - unfold topN_of, batchSize_of, recencyHalfLife_of, tokenizer_of, weights_of.
    cbn [Param.topN Param.batchSize Param.semWeight Param.lexWeight Param.exactWeight
         Param.timeWeight Param.recencyHalfLife Param.minTokenLength
         Param.customStopwords W_sem W_lex W_exact W_time].
    rewrite !or_default_zero. repeat split; reflexivity.
  - unfold topN_of, batchSize_of, recencyHalfLife_of, tokenizer_of, weights_of.
    cbn [Param.topN Param.batchSize Param.semWeight Param.lexWeight Param.exactWeight
         Param.timeWeight Param.recencyHalfLife Param.minTokenLength
         Param.customStopwords W_sem W_lex W_exact W_time].
    repeat split;
      try (unfold or_defaultZ;
           match goal with |- context [(?x =? 0)%Z] =>
             destruct (Z.eqb_spec x 0); [discriminate | assumption] end);
      try (apply or_default_nonzero_default; lra).
  - unfold topN_of, batchSize_of, recencyHalfLife_of, tokenizer_of, weights_of.
    cbn [Param.topN Param.batchSize Param.semWeight Param.lexWeight Param.exactWeight
         Param.timeWeight Param.recencyHalfLife Param.minTokenLength
         Param.customStopwords W_sem W_lex W_exact W_time].
    repeat split; intros Hne;
      try (apply or_default_nonzero; exact Hne);
      unfold or_defaultZ;
      match goal with |- context [(?x =? 0)%Z] =>
        destruct (Z.eqb_spec x 0); [contradiction | reflexivity] end.
  - rewrite execute_try_valid.
    unfold scoring_loop, ranking, query_tokens, tokenizer_of, topN_of, batchSize_of,
      recencyHalfLife_of, normalizeMethod_of, weights_of, sumW_of.
    cbn [Param.topN Param.batchSize Param.semWeight Param.lexWeight Param.exactWeight
         Param.timeWeight Param.recencyHalfLife Param.minTokenLength
         Param.customStopwords Param.useExternalScore Param.normalizeMethod
         Param.useModel Param.modelWeights Param.debug W_sem W_lex W_exact W_time].
    rewrite !or_default_zero. reflexivity.
  - repeat split; apply execute_params_ext; try reflexivity;
      unfold weights_of, recencyHalfLife_of; cbn;
      rewrite ?or_default_zero, ?or_default_same; reflexivity.
Qed.

(** * C10: only the first input item is read *)

(** C10: the items after the first have no effect on the output. *)
Theorem C10_only_first_item_is_read
  (Number : string -> option R) (now : Z) (fuel : nat) (P : Param.t)
  (first : Item InputJson) (rest rest' : list (Item InputJson)) :
  execute Number now fuel P (first :: rest) = execute Number now fuel P (first :: rest').
Proof. reflexivity. Qed.

(** * Further properties of [execute] *)

(** ** Cosine similarity *)

(** The three sums of the loop of [cos]: what the loop adds to its
    accumulators satisfies the Cauchy-Schwarz inequality. *)
Lemma cos_loop_sums (a c : list R) (dot na nb : R) :
  exists D A B,
    cos_loop a c dot na nb = (dot + D, na + A, nb + B) /\
    0 <= A /\ 0 <= B /\ D * D <= A * B.
Proof.
  revert c dot na nb. induction a as [|x a IH]; intros c dot na nb.
  - exists 0, 0, 0. cbn. rewrite !Rplus_0_r. repeat split; lra.
  - destruct c as [|y c].
    + exists 0, 0, 0. cbn. rewrite !Rplus_0_r. repeat split; lra.
    + cbn [cos_loop].
      destruct (IH c (dot + x * y) (na + x ^ 2) (nb + y ^ 2)) as (D & A & B & E & HA & HB & HD).
      exists (x * y + D), (x ^ 2 + A), (y ^ 2 + B).
      split; [rewrite E; f_equal; [f_equal |]; lra |].
      pose proof (pow2_ge_0 x) as Hx. pose proof (pow2_ge_0 y) as Hy.
      split; [lra |]. split; [lra |].
      assert (HxB : 0 <= x ^ 2 * B) by (apply Rmult_le_pos; assumption).
      assert (HyA : 0 <= y ^ 2 * A) by (apply Rmult_le_pos; assumption).
      assert (Hmix : 2 * (x * y * D) <= x ^ 2 * B + y ^ 2 * A).
      { assert (Hsq : (2 * (x * y * D)) * (2 * (x * y * D))
                      <= (x ^ 2 * B + y ^ 2 * A) * (x ^ 2 * B + y ^ 2 * A)).
        { assert (H1 : 0 <= ((x * y) * (x * y)) * (A * B - D * D)).
          { apply Rmult_le_pos; [| lra].
            pose proof (Rle_0_sqr (x * y)) as H0. unfold Rsqr in H0. exact H0. }
          pose proof (Rle_0_sqr (x ^ 2 * B - y ^ 2 * A)) as H2. unfold Rsqr in H2.
          lra. }
        destruct (Rle_lt_dec (2 * (x * y * D)) (x ^ 2 * B + y ^ 2 * A)) as [Hle | Hlt];
          [exact Hle | exfalso].
        assert (Hlt2 : (x ^ 2 * B + y ^ 2 * A) * (x ^ 2 * B + y ^ 2 * A)
                       < (2 * (x * y * D)) * (2 * (x * y * D))).
        { apply Rmult_le_0_lt_compat; lra. }
        lra. }
      lra.
Qed.

Lemma cos_range (a c : list R) : -1 <= cos a c <= 1.
Proof.
  unfold cos.
  destruct ((length a =? 0)%nat || (length c =? 0)%nat || negb (length a =? length c)%nat);
    [lra |].
  destruct (cos_loop_sums a c 0 0 0) as (D & A & B & E & HA & HB & HD).
  rewrite E, !Rplus_0_l.
  destruct (Req_dec_T (sqrt A * sqrt B) 0) as [_ | Hne]; [lra |].
  assert (Hs : 0 < sqrt A * sqrt B).
  { pose proof (sqrt_pos A). pose proof (sqrt_pos B).
    assert (0 <= sqrt A * sqrt B) by (apply Rmult_le_pos; assumption). lra. }
  assert (Hsq : (sqrt A * sqrt B) * (sqrt A * sqrt B) = A * B).
  { replace ((sqrt A * sqrt B) * (sqrt A * sqrt B))
      with ((sqrt A * sqrt A) * (sqrt B * sqrt B)) by ring.
    now rewrite !sqrt_sqrt. }
  assert (Habs : - (sqrt A * sqrt B) <= D <= sqrt A * sqrt B).
  { split.
    - destruct (Rle_lt_dec (- (sqrt A * sqrt B)) D) as [Hle | Hlt]; [exact Hle | exfalso].
      assert ((sqrt A * sqrt B) * (sqrt A * sqrt B) < (- D) * (- D))
        by (apply Rmult_le_0_lt_compat; lra).
      lra.
    - destruct (Rle_lt_dec D (sqrt A * sqrt B)) as [Hle | Hlt]; [exact Hle | exfalso].
      assert ((sqrt A * sqrt B) * (sqrt A * sqrt B) < D * D)
        by (apply Rmult_le_0_lt_compat; lra).
      lra. }
  set (s := sqrt A * sqrt B) in *.
  split.
  - apply Rmult_le_reg_r with (r := s); [exact Hs |].
    replace (D / s * s) with D by (field; lra). lra.
  - apply Rmult_le_reg_r with (r := s); [exact Hs |].
    replace (D / s * s) with D by (field; lra). lra.
Qed.

(** X1: in cosine mode the semantic signal of a candidate lies in [-1,1],
    whatever the two embeddings hold, and it is 0 when the candidate has no
    embedding or the query embedding is empty. *)
Theorem X1_semantic_signal_range (qEmb : list R) (d : Doc) :
  -1 <= sem_of false qEmb d <= 1 /\
  (doc_embedding d = None \/ qEmb = [] -> sem_of false qEmb d = 0).
Proof.
  unfold sem_of. split.
  - destruct (doc_embedding d) as [e|]; [| lra].
    destruct (negb (length qEmb =? 0)%nat && negb (length e =? 0)%nat); [| lra].
    apply cos_range.
  - intros [-> | ->]; [reflexivity |].
    destruct (doc_embedding d); reflexivity.
Qed.

Lemma cos_loop_zero_l (a c : list R) (dot na nb : R) :
  Forall (fun x => x = 0) a ->
  exists nb', cos_loop a c dot na nb = (dot, na, nb').
Proof.
  intros Ha. revert c dot na nb.
  induction Ha as [|x a Hx Ha IH]; intros c dot na nb.
  - exists nb. reflexivity.
  - destruct c as [|y c]; [exists nb; reflexivity |].
    cbn [cos_loop]. subst x.
    destruct (IH c (dot + 0 * y) (na + 0 ^ 2) (nb + y ^ 2)) as (nb' & E).
    exists nb'. rewrite E. replace (dot + 0 * y) with dot by lra.
    replace (na + 0 ^ 2) with na by lra. reflexivity.
Qed.

Lemma cos_loop_zero_r (a c : list R) (dot na nb : R) :
  Forall (fun x => x = 0) c ->
  exists na', cos_loop a c dot na nb = (dot, na', nb).
Proof.
  intros Hc. revert a dot na nb.
  induction Hc as [|y c Hy Hc IH]; intros a dot na nb.
  - exists na. destruct a; reflexivity.
  - destruct a as [|x a]; [exists na; reflexivity |].
    cbn [cos_loop]. subst y.
    destruct (IH a (dot + x * 0) (na + x ^ 2) (nb + 0 ^ 2)) as (na' & E).
    exists na'. rewrite E. replace (dot + x * 0) with dot by lra.
    replace (nb + 0 ^ 2) with nb by lra. reflexivity.
Qed.

(** X2: the cosine is 0, not an error, when a vector is empty, when the
    lengths differ and when a vector is all zeros. *)
Theorem X2_cos_degenerate_is_zero (a c : list R) :
  a = [] \/ c = [] \/ length a <> length c \/
  Forall (fun x => x = 0) a \/ Forall (fun x => x = 0) c ->
  cos a c = 0.
Proof.
  intros H. unfold cos.
  destruct ((length a =? 0)%nat || (length c =? 0)%nat || negb (length a =? length c)%nat)
    eqn:E; [reflexivity |].
  apply orb_false_elim in E as [E E3]. apply orb_false_elim in E as [E1 E2].
  apply Nat.eqb_neq in E1, E2. apply negb_false_iff, Nat.eqb_eq in E3.
  destruct H as [-> | [-> | [H | [H | H]]]]; try (cbn in *; congruence).
  - destruct (cos_loop_zero_l a c 0 0 0 H) as (nb' & ->).
    rewrite sqrt_0, Rmult_0_l. destruct (Req_dec_T 0 0); [reflexivity | contradiction].
  - destruct (cos_loop_zero_r a c 0 0 0 H) as (na' & ->).
    rewrite sqrt_0, Rmult_0_r. destruct (Req_dec_T 0 0); [reflexivity | contradiction].
Qed.

Lemma X2_cos_degenerate_is_zero_witness :
  length [1; 2] <> length [1; 2; 3] /\ cos [1; 2] [1; 2; 3] = 0.
Proof.
  assert (H : length [1; 2] <> length [1; 2; 3]) by (cbn; lia).
  split; [exact H |].
  apply (X2_cos_degenerate_is_zero [1; 2] [1; 2; 3]). right. right. left. exact H.
Defined.

Lemma cos_loop_self (a : list R) (acc : R) :
  exists A, cos_loop a a acc acc acc = (acc + A, acc + A, acc + A) /\ 0 <= A /\
            (Exists (fun x => x <> 0) a -> 0 < A).
Proof.
  revert acc. induction a as [|x a IH]; intros acc.
  - exists 0. cbn. rewrite Rplus_0_r. split; [reflexivity |]. split; [lra |].
    intros H. inversion H.
  - cbn [cos_loop]. replace (acc + x ^ 2) with (acc + x * x) by ring.
    destruct (IH (acc + x * x)) as (A & E & HA & Hpos).
    exists (x * x + A). rewrite E.
    pose proof (Rle_0_sqr x) as Hx. unfold Rsqr in Hx.
    split; [f_equal; [f_equal |]; ring |]. split; [lra |].
    intros H. apply Exists_cons in H as [H | H].
    + assert (0 < x * x); [| lra].
      destruct (Rtotal_order x 0) as [Hn | [-> | Hp]]; [| contradiction |].
      * replace (x * x) with ((- x) * (- x)) by ring. apply Rmult_lt_0_compat; lra.
      * apply Rmult_lt_0_compat; lra.
    + specialize (Hpos H). lra.
Qed.

Lemma cos_loop_swap (a c : list R) (dot na nb : R) :
  cos_loop c a dot nb na =
  let '(d, x, y) := cos_loop a c dot na nb in (d, y, x).
Proof.
  revert c dot na nb. induction a as [|x a IH]; intros [|y c] dot na nb; try reflexivity.
  cbn [cos_loop]. rewrite <- IH. f_equal. ring.
Qed.

(** X3: the cosine is symmetric, and the cosine of a vector with itself is
    1 as soon as one of its components is not zero. *)
Theorem X3_cos_symmetric_self (a c : list R) :
  cos a c = cos c a /\ (Exists (fun x => x <> 0) a -> cos a a = 1).
Proof.
  split.
  - unfold cos. rewrite (Nat.eqb_sym (length c) (length a)).
    rewrite (orb_comm (length c =? 0)%nat (length a =? 0)%nat).
    destruct ((length a =? 0)%nat || (length c =? 0)%nat || negb (length a =? length c)%nat);
      [reflexivity |].
    rewrite (cos_loop_swap a c 0 0 0).
    destruct (cos_loop a c 0 0 0) as [[d x] y].
    rewrite (Rmult_comm (sqrt y) (sqrt x)). reflexivity.
  - intros H. unfold cos.
    destruct a as [|x a]; [inversion H |].
    cbn [length Nat.eqb orb]. rewrite Nat.eqb_refl. cbn [negb orb].
    destruct (cos_loop_self (x :: a) 0) as (A & E & HA & Hpos).
    rewrite E, Rplus_0_l. specialize (Hpos H).
    rewrite sqrt_sqrt by lra.
    destruct (Req_dec_T A 0); [lra | field; lra].
Qed.

Lemma X3_cos_symmetric_self_witness :
  Exists (fun x => x <> 0) [3; 4] /\ cos [3; 4] [3; 4] = 1.
Proof.
  assert (H : Exists (fun x => x <> 0) [3; 4]) by (left; lra).
  split; [exact H |].
  apply (X3_cos_symmetric_self [3; 4] [3; 4]). exact H.
Defined.

(** ** The tokenizer *)

Lemma all_chars_app (P : ascii -> bool) (s1 s2 : string) :
  all_chars P (s1 ++ s2) = all_chars P s1 && all_chars P s2.
Proof.
  induction s1 as [|c s1 IH]; [reflexivity |].
  simpl. rewrite IH. apply andb_assoc.
Qed.

Lemma all_chars_impl (P Q : ascii -> bool) (s : string) :
  (forall c, P c = true -> Q c = true) -> all_chars P s = true -> all_chars Q s = true.
Proof.
  intros HPQ. induction s as [|c s IH]; [reflexivity |].
  cbn [all_chars]. rewrite !andb_true_iff. intros [Hc Hs]. split; [apply HPQ, Hc | apply IH, Hs].
Qed.

Lemma lower_char_not_upper (c : ascii) : Str.is_upper (Str.lower_char c) = false.
Proof.
  unfold Str.lower_char. destruct (Str.is_upper c) eqn:E; [| exact E].
  unfold Str.is_upper in *. apply andb_true_iff in E as [E1 E2].
  apply Nat.leb_le in E1, E2.
  rewrite nat_ascii_embedding by lia.
  apply andb_false_iff. right. apply Nat.leb_gt. lia.
Qed.

Lemma toLowerCase_not_upper (s : string) :
  all_chars (fun c => negb (Str.is_upper c)) (Str.toLowerCase s) = true.
Proof.
  induction s as [|c s IH]; [reflexivity |].
  cbn [Str.toLowerCase all_chars]. now rewrite lower_char_not_upper, IH.
Qed.

Lemma lower_char_idem (c : ascii) : Str.lower_char (Str.lower_char c) = Str.lower_char c.
Proof.
  unfold Str.lower_char at 1. now rewrite lower_char_not_upper.
Qed.

Lemma toLowerCase_idem (s : string) :
  Str.toLowerCase (Str.toLowerCase s) = Str.toLowerCase s.
Proof.
  induction s as [|c s IH]; [reflexivity |].
  cbn [Str.toLowerCase]. now rewrite lower_char_idem, IH.
Qed.

(** What the replacement leaves: characters of the class, taken from the
    text, and spaces. *)
Lemma replace_runs_chars (P : ascii -> bool) (in_run : bool) (s : string) :
  all_chars P s = true ->
  all_chars (fun c => (P c && Str.is_letter_or_number c) || Ascii.eqb c " "%char)
    (Str.replace_runs in_run s) = true.
Proof.
  revert in_run. induction s as [|c s IH]; intros in_run H; [reflexivity |].
  cbn [all_chars] in H. apply andb_true_iff in H as [Hc Hs].
  cbn [Str.replace_runs].
  destruct (Str.is_letter_or_number c) eqn:E.
  - cbn [all_chars]. rewrite Hc, E. cbn. apply IH, Hs.
  - destruct in_run; [apply IH, Hs |].
    cbn [all_chars]. rewrite (IH true Hs), andb_true_r.
    apply orb_true_iff. right. reflexivity.
Qed.

(** The pieces of a split hold no white space. *)
Lemma split_runs_chars (P : ascii -> bool) (in_run : bool) (cur s : string) (w : string) :
  all_chars P cur = true -> all_chars (fun c => P c || Str.is_space c) s = true ->
  w ∈ Str.split_runs in_run cur s -> all_chars P w = true.
Proof.
  revert in_run cur. induction s as [|c s IH]; intros in_run cur Hcur Hs Hw.
  - cbn in Hw. apply list_elem_of_singleton in Hw as ->. exact Hcur.
  - cbn [all_chars] in Hs. apply andb_true_iff in Hs as [Hc Hs].
    cbn [Str.split_runs] in Hw.
    destruct (Str.is_space c) eqn:E.
    + destruct in_run.
      * eapply IH; eauto.
      * apply elem_of_cons in Hw as [-> | Hw]; [exact Hcur |].
        eapply (IH true EmptyString); eauto.
    + rewrite orb_false_r in Hc.
      eapply (IH false (cur ++ String c EmptyString)%string); eauto.
      rewrite all_chars_app, Hcur. cbn. now rewrite Hc.
Qed.

Lemma token_char_of_class (c : ascii) :
  (negb (Str.is_upper c) && Str.is_letter_or_number c) = true -> token_char c = true.
Proof.
  unfold Str.is_letter_or_number, token_char.
  destruct (Str.is_upper c), (Str.is_lower c), (Str.is_digit c); cbn; congruence.
Qed.

Lemma space_is_space : Str.is_space " "%char = true.
Proof. reflexivity. Qed.

(** X4: every token is at least [minTokenLength] characters long, is not a
    stop word, and, on the ASCII texts of this model, consists of lower-case
    letters and digits only. *)
Theorem X4_token_invariants (minTokenLength : Z) (stop : gset string) (t w : string) :
  w ∈ tok minTokenLength stop t ->
  (minTokenLength <= Z.of_nat (String.length w))%Z /\
  (w ∉ stop) /\
  all_chars token_char w = true.
Proof.
  unfold tok. intros H. apply list_elem_of_In, filter_In in H as [Hw Hf].
  apply andb_true_iff in Hf as [Hlen Hstop].
  split; [now apply Z.leb_le |].
  split; [apply negb_true_iff, bool_decide_eq_false in Hstop; exact Hstop |].
  apply list_elem_of_In in Hw.
  unfold Str.splitWhitespace, Str.replaceNonAlnum, Str.normalizeNFC in Hw.
  revert Hw. apply split_runs_chars; [reflexivity |].
  pose proof (replace_runs_chars _ false _ (toLowerCase_not_upper t)) as Hr.
  revert Hr. apply all_chars_impl. intros c Hc.
  apply orb_true_iff in Hc as [Hc | Hc].
  - now rewrite (token_char_of_class c Hc).
  - apply Ascii.eqb_eq in Hc as ->. apply orb_true_r.
Qed.

Lemma X4_token_invariants_witness :
  ("learning" ∈ tok 2 (STOP "") "Deep-Learning: the BASICS") /\
  (2 <= Z.of_nat (String.length "learning"))%Z /\
  ("learning" ∉ STOP "") /\
  all_chars token_char "learning" = true.
Proof.
  assert (H : "learning" ∈ tok 2 (STOP "") "Deep-Learning: the BASICS").
  { apply (bool_decide_unpack _). vm_compute. exact I. }
  split; [exact H |].
  exact (X4_token_invariants 2 (STOP "") "Deep-Learning: the BASICS" "learning" H).
Defined.

(** X5: the tokenizer does not see the letter case of the text, and a
    stop word, built in or custom (written in any letter case, with blanks
    around it), is never a token. *)
Theorem X5_case_and_stop_words
  (minTokenLength : Z) (customStopwords : string) (t w piece : string) :
  (w ∈ BASE_STOP) \/
  ((piece ∈ Str.splitComma customStopwords) /\
   w = Str.toLowerCase (Str.trim piece) /\ w <> "") ->
  tok minTokenLength (STOP customStopwords) (Str.toLowerCase t)
  = tok minTokenLength (STOP customStopwords) t /\
  w ∉ tok minTokenLength (STOP customStopwords) t.
Proof.
  intros H. split.
  - unfold tok. now rewrite toLowerCase_idem.
  - intros Hw. unfold tok in Hw. apply list_elem_of_In, filter_In in Hw as [_ Hf].
    apply andb_true_iff in Hf as [_ Hstop].
    apply negb_true_iff, bool_decide_eq_false in Hstop.
    apply Hstop. unfold STOP. apply elem_of_list_to_set, elem_of_app.
    destruct H as [H | (Hp & -> & Hne)]; [left; exact H | right].
    unfold customStop. apply list_elem_of_In, filter_In. split.
    + apply in_map_iff. exists piece. split; [reflexivity | apply list_elem_of_In, Hp].
    + destruct (Str.toLowerCase (Str.trim piece)); [congruence | reflexivity].
Qed.

Lemma X5_case_and_stop_words_witness :
  ((" Deep " ∈ Str.splitComma " Deep ,learning") /\
   "deep" = Str.toLowerCase (Str.trim " Deep ") /\ "deep" <> "") /\
  tok 2 (STOP " Deep ,learning") (Str.toLowerCase "DEEP Learning Networks")
  = tok 2 (STOP " Deep ,learning") "DEEP Learning Networks" /\
  "deep" ∉ tok 2 (STOP " Deep ,learning") "DEEP Learning Networks".
Proof.
  assert (H : (" Deep " ∈ Str.splitComma " Deep ,learning") /\
              "deep" = Str.toLowerCase (Str.trim " Deep ") /\ "deep" <> "").
  { split; [apply (bool_decide_unpack _); vm_compute; exact I |].
    split; [reflexivity | discriminate]. }
  split; [exact H |].
  exact (X5_case_and_stop_words 2 " Deep ,learning" "DEEP Learning Networks" "deep" " Deep "
           (or_intror H)).
Defined.

(** ** The two count maps *)

Lemma counts_positive_lookup (m : gmap string nat) (t : string) :
  counts_positive m ->
  m !! t = if (or_count (m !! t) 0 =? 0)%nat then None else Some (or_count (m !! t) 0).
Proof.
  intros H. specialize (H t). destruct (m !! t) as [[|n]|]; [congruence | reflexivity..].
Qed.

Lemma counts_positive_insert (m : gmap string nat) (t : string) (n : nat) :
  counts_positive m -> counts_positive (<[t := (n + 1)%nat]> m).
Proof.
  intros H u. destruct (decide (t = u)) as [-> | Hne].
  - rewrite lookup_insert_eq. intros E. injection E as E. lia.
  - rewrite lookup_insert_ne by exact Hne. apply H.
Qed.

Lemma counts_positive_empty : counts_positive ∅.
Proof. intros t. rewrite lookup_empty. discriminate. Qed.

Lemma tfMap_fold (dTok : list string) (m : gmap string nat) (t : string) :
  counts_positive m ->
  let m' := fold_left (fun m t => <[t := (or_count (m !! t) 0 + 1)%nat]> m) dTok m in
  counts_positive m' /\
  or_count (m' !! t) 0 = (or_count (m !! t) 0 + term_count t dTok)%nat.
Proof.
  revert m. induction dTok as [|u dTok IH]; intros m Hm; cbn [fold_left].
  - split; [exact Hm | unfold term_count; cbn; lia].
  - destruct (IH (<[u := (or_count (m !! u) 0 + 1)%nat]> m)) as [Hp Hc];
      [now apply counts_positive_insert |].
    split; [exact Hp |]. cbn zeta in Hc. rewrite Hc.
    unfold term_count. cbn [List.filter].
    destruct (bool_decide_reflect (u = t)) as [-> | Hne].
    + rewrite lookup_insert_eq, or_count_succ. cbn [length]. lia.
    + rewrite lookup_insert_ne by exact Hne. lia.
Qed.

(** X6: the term-frequency map of a document holds, for every token but
    "constructor" (for which [tfMap[t]] reads what a plain object
    inherits), the number of its occurrences in the document, and no entry
    for a token that does not occur. *)
Theorem X6_tfMap_counts_occurrences (dTok : list string) (t : string) :
  t <> "constructor" ->
  tfMap dTok !! t =
  if (term_count t dTok =? 0)%nat then None else Some (term_count t dTok).
Proof.
  intros _.
  destruct (tfMap_fold dTok ∅ t counts_positive_empty) as [Hp Hc].
  cbn zeta in Hp, Hc. rewrite lookup_empty in Hc. cbn [or_count] in Hc.
  unfold tfMap. rewrite (counts_positive_lookup _ t Hp), Hc. reflexivity.
Qed.

Lemma X6_tfMap_counts_occurrences_witness :
  let dTok := ["deep"; "learning"; "for"; "deep"; "networks"] in
  "deep" <> "constructor" /\
  term_count "deep" dTok = 2%nat /\
  tfMap dTok !! "deep" =
  (if (term_count "deep" dTok =? 0)%nat then None else Some (term_count "deep" dTok)).
Proof.
  intros dTok.
  assert (H : "deep" <> "constructor") by discriminate.
  split; [exact H |]. split; [reflexivity |].
  exact (X6_tfMap_counts_occurrences dTok "deep" H).
Defined.

Lemma globalDF_step_positive tokenize (d : Doc) (g : gmap string nat) (u : string) :
  counts_positive g -> counts_positive (globalDF_step tokenize d g u).
Proof.
  intros H. unfold globalDF_step.
  destruct (bool_decide _); [now apply counts_positive_insert | exact H].
Qed.

Lemma globalDF_positive tokenize (qTok : list string) (docs : list Doc) :
  counts_positive (globalDF tokenize qTok docs).
Proof.
  unfold globalDF.
  assert (H : forall g, counts_positive g ->
                        counts_positive (fold_left (globalDF_doc tokenize qTok) docs g)).
  { induction docs as [|d docs IH]; intros g Hg; [exact Hg |].
    cbn [fold_left]. apply IH. unfold globalDF_doc.
    clear IH. revert g Hg. induction qTok as [|u qTok IHq]; intros g Hg; [exact Hg |].
    cbn [fold_left]. apply IHq, globalDF_step_positive, Hg. }
  apply H, counts_positive_empty.
Qed.

Lemma occurrences_not_elem (qTok : list string) (t : string) :
  t ∉ qTok -> occurrences t qTok = 0%nat.
Proof.
  unfold occurrences. induction qTok as [|u qTok IH]; intros H; [reflexivity |].
  apply not_elem_of_cons in H as [Hne H].
  cbn [List.filter]. rewrite bool_decide_eq_false_2 by congruence. apply IH, H.
Qed.

(** X7: the global map holds, for every token but "constructor", the
    number of candidates that contain it times the number of its
    occurrences in the query, and no entry when that product is zero; so
    only query tokens are tracked. *)
Theorem X7_globalDF_contents
  (tokenize : string -> list string) (qTok : list string) (docs : list Doc) (t : string) :
  t <> "constructor" ->
  let n := (occurrences t qTok * document_frequency tokenize docs t)%nat in
  globalDF tokenize qTok docs !! t = (if (n =? 0)%nat then None else Some n) /\
  (t ∉ qTok -> globalDF tokenize qTok docs !! t = None).
Proof.
  intros _ n.
  assert (H : globalDF tokenize qTok docs !! t = if (n =? 0)%nat then None else Some n).
  { rewrite (counts_positive_lookup _ t (globalDF_positive tokenize qTok docs)).
    rewrite globalDF_count. reflexivity. }
  split; [exact H |].
  intros Hnin. rewrite H. unfold n. now rewrite (occurrences_not_elem qTok t Hnin).
Qed.

Lemma X7_globalDF_contents_witness :
  let tokenize := tokenizer_of default_params in
  let qTok := ["machine"; "learning"] in
  let n := (occurrences "learning" qTok
            * document_frequency tokenize three_docs "learning")%nat in
  "learning" <> "constructor" /\
  globalDF tokenize qTok three_docs !! "learning"
  = (if (n =? 0)%nat then None else Some n) /\
  ("learning" ∉ qTok -> globalDF tokenize qTok three_docs !! "learning" = None).
Proof.
  intros tokenize qTok n.
  assert (H : "learning" <> "constructor") by discriminate.
  split; [exact H |].
  exact (X7_globalDF_contents tokenize qTok three_docs "learning" H).
Defined.

(** ** The lexical signals *)

Lemma term_count_not_elem (dTok : list string) (t : string) :
  t ∉ dTok -> term_count t dTok = 0%nat.
Proof.
  unfold term_count. induction dTok as [|u dTok IH]; intros H; [reflexivity |].
  apply not_elem_of_cons in H as [Hne H].
  cbn [List.filter]. rewrite bool_decide_eq_false_2 by congruence. apply IH, H.
Qed.

Lemma bm25_fold_bounds (qTok : list string) (docs_length : nat) (gDF : gmap string nat)
  (tfm : gmap string nat) (len avg lo hi : R) (acc : R) :
  lo <= 0 <= hi ->
  Forall (fun t => forall tf, or_count (tfm !! t) 0 = S tf ->
                   lo <= bm25_term docs_length gDF t (S tf) len avg <= hi) qTok ->
  acc + INR (length qTok) * lo
  <= fold_left (bm25_step docs_length gDF tfm len avg) qTok acc
  <= acc + INR (length qTok) * hi.
Proof.
  intros Hb H. revert acc. induction H as [|t qTok Ht H IH]; intros acc.
  - cbn. lra.
  - cbn [fold_left]. change (length (t :: qTok)) with (S (length qTok)).
    rewrite S_INR.
    assert (Hstep : acc + lo <= bm25_step docs_length gDF tfm len avg acc t <= acc + hi).
    { unfold bm25_step.
      destruct (or_count (tfm !! t) 0) as [|tf] eqn:E; cbn [Nat.eqb]; [lra |].
      specialize (Ht tf eq_refl). lra. }
    specialize (IH (bm25_step docs_length gDF tfm len avg acc t)). lra.
Qed.

Lemma tfMap_count (dTok : list string) (t : string) :
  or_count (tfMap dTok !! t) 0 = term_count t dTok.
Proof.
  destruct (tfMap_fold dTok ∅ t counts_positive_empty) as [_ Hc].
  cbn zeta in Hc. rewrite lookup_empty in Hc. exact Hc.
Qed.

(** X8: a candidate that shares no token with the query gets a raw BM25 of
    0 and an exact overlap of 0, when no query token is "constructor". *)
Theorem X8_no_shared_token_no_lexical_signal
  (tokenize : string -> list string) (qTok : list string)
  (useExternalScore : bool) (qEmb : list R) (recencyHalfLife : R) (now : Z)
  (docs_length : nat) (gDF : gmap string nat) (avg : R) (d : Doc) :
  no_inherited_key qTok ->
  Forall (fun t => t ∉ tokenize (doc_chunk d)) qTok ->
  let p := pre_of tokenize qTok useExternalScore qEmb recencyHalfLife now docs_length gDF
             avg d in
  bm25 p = 0 /\ exact_ p = 0.
Proof.
  intros _ H p. unfold p. cbn [pre_of bm25 exact_]. split.
  - unfold bm25_of.
    pose proof (bm25_fold_bounds qTok docs_length gDF (tfMap (tokenize (doc_chunk d)))
                  (INR (or_count (Some (length (tokenize (doc_chunk d)))) 1)) avg 0 0 0) as Hb.
    rewrite !Rmult_0_r, !Rplus_0_r in Hb.
    apply Rle_antisym; apply Hb; try lra.
    all: rewrite Forall_forall in H |- *; intros t Ht tf Htf;
      rewrite tfMap_count, (term_count_not_elem _ t (H t Ht)) in Htf;
      discriminate.
  - unfold exact_of.
    assert (E : List.filter
                  (fun t => bool_decide
                              (t ∈ (list_to_set (tokenize (doc_chunk d)) : gset string)))
                  qTok = []).
    { clear p. induction H as [|t qTok Ht H IH]; [reflexivity |].
      cbn [List.filter]. rewrite bool_decide_eq_false_2; [exact IH |].
      rewrite elem_of_list_to_set. exact Ht. }
    rewrite E. cbn. lra.
Qed.

Lemma X8_no_shared_token_no_lexical_signal_witness :
  let tokenize := tokenizer_of default_params in
  let qTok := ["machine"; "learning"] in
  let d := doc_of "cooking recipes" in
  no_inherited_key qTok /\
  Forall (fun t => t ∉ tokenize (doc_chunk d)) qTok /\
  bm25 (pre_of tokenize qTok false [] 60 0 3 ∅ 3 d) = 0 /\
  exact_ (pre_of tokenize qTok false [] 60 0 3 ∅ 3 d) = 0.
Proof.
  intros tokenize qTok d.
  assert (Hk : no_inherited_key qTok).
  { apply (bool_decide_unpack _). vm_compute. exact I. }
  assert (H : Forall (fun t => t ∉ tokenize (doc_chunk d)) qTok).
  { apply (bool_decide_unpack _). vm_compute. exact I. }
  split; [exact Hk |]. split; [exact H |].
  exact (X8_no_shared_token_no_lexical_signal tokenize qTok false [] 60 0 3 ∅ 3 d Hk H).
Defined.

Lemma avgLen_nonneg (tokenize : string -> list string) (batch : list Doc) :
  0 <= avgLen tokenize batch.
Proof.
  unfold avgLen.
  assert (H1 : 0 < INR (Nat.max (length batch) 1)) by (apply lt_0_INR; lia).
  pose proof (pos_INR (fold_left (fun s d => (s + length (tokenize (doc_chunk d)))%nat)
                         batch 0%nat)) as H2.
  apply Rmult_le_pos; [exact H2 |]. left. now apply Rinv_0_lt_compat.
Qed.

Lemma length_ratio_nonneg (n : nat) (avg : R) :
  0 <= avg -> 0 <= INR (or_count (Some n) 1) / avg.
Proof.
  intros Ha. pose proof (pos_INR (or_count (Some n) 1)) as Hn.
  destruct Ha as [Ha | <-].
  - apply Rmult_le_pos; [exact Hn |]. left. now apply Rinv_0_lt_compat.
  - unfold Rdiv. rewrite Rinv_0. lra.
Qed.

Lemma idf_upper (docs_length : nat) (gDF : gmap string nat) (t : string) :
  idf docs_length gDF t <= ln (INR (docs_length + 1)).
Proof.
  unfold idf.
  assert (H1 : (1 <= or_count (gDF !! t) 1)%nat) by (destruct (gDF !! t) as [[|n]|]; cbn; lia).
  apply le_INR in H1. cbn [INR] in H1.
  assert (HN : 0 < INR (docs_length + 1)) by (apply lt_0_INR; lia).
  set (df := INR (or_count (gDF !! t) 1)) in *.
  assert (Hr : 0 < INR (docs_length + 1) / df <= INR (docs_length + 1)).
  { split.
    - apply Rdiv_lt_0_compat; lra.
    - apply Rmult_le_reg_r with (r := df); [lra |].
      replace (INR (docs_length + 1) / df * df) with (INR (docs_length + 1)) by (field; lra).
      nra. }
  destruct Hr as [Hr1 [Hr2 | Hr2]].
  - left. now apply ln_increasing.
  - rewrite Hr2. lra.
Qed.

Lemma bm25_term_bounds (docs_length : nat) (gDF : gmap string nat) (t : string)
  (tf : nat) (len avg : R) :
  0 <= idf docs_length gDF t -> 0 <= len / avg ->
  0 <= bm25_term docs_length gDF t (S tf) len avg
    <= (k1 + 1) * ln (INR (docs_length + 1)).
Proof.
  intros Hidf Hratio. unfold bm25_term.
  pose proof (idf_upper docs_length gDF t) as Hup.
  destruct k1_b_positive as (Hk & Hb0 & Hb1).
  set (c := k1 * (1 - b + b * (len / avg))).
  assert (Hc : 0 < c) by (unfold c; apply Rmult_lt_0_compat; [exact Hk | nra]).
  assert (Htf : 0 < INR (S tf)) by (apply lt_0_INR; lia).
  set (x := INR (S tf)) in *.
  assert (Hg : 0 <= x * (k1 + 1) / (x + c) <= k1 + 1).
  { split.
    - apply Rmult_le_pos; [nra |]. left. apply Rinv_0_lt_compat. lra.
    - apply Rmult_le_reg_r with (r := x + c); [lra |].
      replace (x * (k1 + 1) / (x + c) * (x + c)) with (x * (k1 + 1)) by (field; lra).
      nra. }
  set (g := x * (k1 + 1) / (x + c)) in *.
  set (i := idf docs_length gDF t) in *.
  split; [apply Rmult_le_pos; lra |].
  apply Rle_trans with (r2 := (k1 + 1) * i).
  - rewrite (Rmult_comm i g). apply Rmult_le_compat_r; lra.
  - apply Rmult_le_compat_l; lra.
Qed.

(** X9: for a query without repeated tokens, none of them "constructor",
    the raw BM25 of every candidate of every batch is at least 0 and at
    most [qTok.length * (k1 + 1) * ln(docs.length + 1)]. *)
Theorem X9_bm25_bounds
  (tokenize : string -> list string) (qTok : list string)
  (useExternalScore : bool) (qEmb : list R) (recencyHalfLife : R) (now : Z)
  (docs batch : list Doc) (d : Doc) :
  no_inherited_key qTok ->
  NoDup qTok ->
  let p := pre_of tokenize qTok useExternalScore qEmb recencyHalfLife now (length docs)
             (globalDF tokenize qTok docs) (avgLen tokenize batch) d in
  0 <= bm25 p <= INR (length qTok) * ((k1 + 1) * ln (INR (length docs + 1))).
Proof.
  intros _ Hnd p. unfold p. cbn [pre_of bm25]. unfold bm25_of.
  pose proof (bm25_fold_bounds qTok (length docs) (globalDF tokenize qTok docs)
                (tfMap (tokenize (doc_chunk d)))
                (INR (or_count (Some (length (tokenize (doc_chunk d)))) 1))
                (avgLen tokenize batch) 0 ((k1 + 1) * ln (INR (length docs + 1))) 0) as Hb.
  rewrite Rmult_0_r, !Rplus_0_l in Hb. apply Hb.
  - split; [lra |]. apply Rmult_le_pos; [unfold k1; lra |].
    rewrite <- ln_1. destruct (length docs) as [|n] eqn:E.
    + cbn. lra.
    + left. apply ln_increasing; [lra |]. apply lt_1_INR. lia.
  - rewrite Forall_forall. intros t _ tf _. apply bm25_term_bounds.
    + apply idf_nonneg. rewrite globalDF_count.
      pose proof (occurrences_NoDup_le qTok t Hnd).
      pose proof (document_frequency_le tokenize docs t). nia.
    + apply length_ratio_nonneg, avgLen_nonneg.
Qed.

Lemma X9_bm25_bounds_witness :
  let tokenize := tokenizer_of default_params in
  let qTok := ["machine"; "learning"] in
  no_inherited_key qTok /\
  NoDup qTok /\
  0 <= bm25 (pre_of tokenize qTok false [] 60 0 (length three_docs)
               (globalDF tokenize qTok three_docs) (avgLen tokenize three_docs)
               (doc_of "machine learning basics"))
    <= INR (length qTok) * ((k1 + 1) * ln (INR (length three_docs + 1))).
Proof.
  intros tokenize qTok.
  assert (Hk : no_inherited_key qTok).
  { apply (bool_decide_unpack _). vm_compute. exact I. }
  assert (H : NoDup qTok) by (apply (bool_decide_unpack _); vm_compute; exact I).
  split; [exact Hk |]. split; [exact H |].
  exact (X9_bm25_bounds tokenize qTok false [] 60 0 three_docs three_docs
           (doc_of "machine learning basics") Hk H).
Defined.

Lemma filter_length_all {A} (f : A -> bool) (l : list A) :
  length (List.filter f l) = length l <-> Forall (fun x => f x = true) l.
Proof.
  induction l as [|x l IH]; [split; [constructor | reflexivity] |].
  cbn [List.filter]. pose proof (filter_length_le f l) as Hle.
  destruct (f x) eqn:E; cbn [length]; split.
  - intros H. constructor; [exact E | apply IH; lia].
  - intros H. apply Forall_cons in H as [_ H]. f_equal. now apply IH.
  - lia.
  - intros H. apply Forall_cons in H as [H _]. congruence.
Qed.

(** X10: with a non-empty query-token sequence the exact overlap of a
    candidate lies in [0,1], and it is 1 exactly when every query token is
    a token of the candidate. *)
Theorem X10_exact_overlap_range
  (tokenize : string -> list string) (qTok : list string)
  (useExternalScore : bool) (qEmb : list R) (recencyHalfLife : R) (now : Z)
  (docs_length : nat) (gDF : gmap string nat) (avg : R) (d : Doc) :
  qTok <> [] ->
  let p := pre_of tokenize qTok useExternalScore qEmb recencyHalfLife now docs_length gDF
             avg d in
  0 <= exact_ p <= 1 /\
  (exact_ p = 1 <-> Forall (fun t => t ∈ tokenize (doc_chunk d)) qTok).
Proof.
  intros Hne p. unfold p. cbn [pre_of exact_]. unfold exact_of.
  set (f := fun t => bool_decide
                       (t ∈ (list_to_set (tokenize (doc_chunk d)) : gset string))).
  pose proof (filter_length_le f qTok) as Hle.
  assert (HL : 0 < INR (length qTok)).
  { apply lt_0_INR. destruct qTok; [congruence | cbn; lia]. }
  pose proof (pos_INR (length (List.filter f qTok))) as Hn.
  apply le_INR in Hle.
  set (n := INR (length (List.filter f qTok))) in *.
  set (L := INR (length qTok)) in *.
  assert (Hdiv : n / L * L = n) by (field; lra).
  split; [split |].
  - apply Rmult_le_pos; [exact Hn |]. left. now apply Rinv_0_lt_compat.
  - apply Rmult_le_reg_r with (r := L); [exact HL |]. rewrite Hdiv. lra.
  - assert (Hall : Forall (fun t => t ∈ tokenize (doc_chunk d)) qTok
                   <-> Forall (fun x => f x = true) qTok).
    { rewrite !Forall_forall. split; intros H t Ht; specialize (H t Ht); unfold f in *.
      - apply bool_decide_eq_true_2, elem_of_list_to_set, H.
      - apply bool_decide_eq_true_1, elem_of_list_to_set in H. exact H. }
    rewrite Hall, <- filter_length_all. split.
    + intros H. apply INR_eq. fold n L. rewrite <- Hdiv, H. lra.
    + intros H. unfold n, L. rewrite H. field. fold L. lra.
Qed.

Lemma X10_exact_overlap_range_witness :
  let tokenize := tokenizer_of default_params in
  let qTok := ["machine"; "learning"] in
  let p := pre_of tokenize qTok false [] 60 0 3 ∅ 3 (doc_of "machine learning basics") in
  qTok <> [] /\
  0 <= exact_ p <= 1 /\
  (exact_ p = 1 <->
   Forall (fun t => t ∈ tokenize (doc_chunk (doc_of "machine learning basics"))) qTok).
Proof.
  intros tokenize qTok p.
  assert (H : qTok <> []) by discriminate.
  split; [exact H |].
  exact (X10_exact_overlap_range tokenize qTok false [] 60 0 3 ∅ 3
           (doc_of "machine learning basics") H).
Defined.

(** ** Recency *)

Lemma exp_monotone (x y : R) : x <= y -> exp x <= exp y.
Proof. intros [H | ->]; [left; now apply exp_increasing | lra]. Qed.

Lemma neg_div_monotone (x y h : R) : 0 < h -> x <= y -> - y / h <= - x / h.
Proof.
  intros Hh Hxy. apply Rmult_le_reg_r with (r := h); [exact Hh |].
  replace (- y / h * h) with (- y) by (field; lra).
  replace (- x / h * h) with (- x) by (field; lra). lra.
Qed.

(** X11: with a positive half-life the recency signal of a candidate
    stamped in the past lies in (0,1], and of two such candidates the older
    one never gets the higher signal. *)
Theorem X11_recency_decays
  (recencyHalfLife : R) (now : Z) (d1 d2 : Doc) (t1 t2 : Z) :
  0 < recencyHalfLife ->
  doc_time d1 = Some t1 -> doc_time d2 = Some t2 ->
  (t1 <= t2)%Z -> (t2 <= now)%Z ->
  0 < rec_of recencyHalfLife now d1 /\
  rec_of recencyHalfLife now d1 <= rec_of recencyHalfLife now d2 /\
  rec_of recencyHalfLife now d2 <= 1.
Proof.
  intros Hh H1 H2 H12 H2n. unfold rec_of, days_of. rewrite H1, H2.
  apply IZR_le in H12, H2n.
  split; [apply exp_pos |]. split.
  - apply exp_monotone, neg_div_monotone; [exact Hh |].
    apply Rmult_le_compat_r; lra.
  - rewrite <- exp_0. apply exp_monotone.
    replace 0 with (- 0 / recencyHalfLife) by (field; lra).
    apply neg_div_monotone; [exact Hh |].
    apply Rmult_le_pos; lra.
Qed.

Lemma X11_recency_decays_witness :
  0 < 60 /\ (0 <= 86400000)%Z /\ (86400000 <= 172800000)%Z /\
  0 < rec_of 60 172800000 (doc_at "old" 0) /\
  rec_of 60 172800000 (doc_at "old" 0) <= rec_of 60 172800000 (doc_at "new" 86400000) /\
  rec_of 60 172800000 (doc_at "new" 86400000) <= 1.
Proof.
  assert (Hh : 0 < 60) by lra.
  assert (H12 : (0 <= 86400000)%Z) by lia.
  assert (H2n : (86400000 <= 172800000)%Z) by lia.
  split; [exact Hh |]. split; [exact H12 |]. split; [exact H2n |].
  exact (X11_recency_decays 60 172800000 (doc_at "old" 0) (doc_at "new" 86400000)
           0 86400000 Hh eq_refl eq_refl H12 H2n).
Defined.

(** X12: a candidate whose timestamp is missing or unusable is not an
    error: it gets the recency signal of a candidate stamped 999 days
    before the run. *)
Theorem X12_missing_timestamp_is_999_days
  (recencyHalfLife : R) (now : Z) (d d' : Doc) :
  doc_time d = None ->
  doc_time d' = Some (now - 999 * 86400000)%Z ->
  rec_of recencyHalfLife now d = rec_of recencyHalfLife now d' /\
  rec_of recencyHalfLife now d = exp (- 999 / recencyHalfLife).
Proof.
  intros H H'. unfold rec_of, days_of. rewrite H, H'. split; [| reflexivity].
  f_equal. f_equal. f_equal.
  rewrite minus_IZR, mult_IZR. field.
Qed.

Lemma X12_missing_timestamp_is_999_days_witness :
  rec_of 60 86313600000 (doc_of "undated")
  = rec_of 60 86313600000 (doc_at "dated" 0) /\
  rec_of 60 86313600000 (doc_of "undated") = exp (- 999 / 60).
Proof.
  exact (X12_missing_timestamp_is_999_days 60 86313600000 (doc_of "undated")
           (doc_at "dated" 0) eq_refl eq_refl).
Defined.

(** ** What the batch loop keeps *)

Section LoopInvariants.

Context (useModel : bool) (modelWeights : option ModelWeights) (W : Weights) (sumW : R)
        (debug : bool) (normalizeMethod : string) (tokenize : string -> list string)
        (qTok : list string) (useExternalScore : bool) (qEmb : list R)
        (recencyHalfLife : R) (now : Z) (docs : list Doc) (gDF : gmap string nat)
        (batchSize : Z).

Local Abbreviation process_here :=
  (process_batch useModel modelWeights W sumW debug normalizeMethod tokenize qTok
     useExternalScore qEmb recencyHalfLife now docs gDF).
Local Abbreviation loop_here :=
  (batch_loop useModel modelWeights W sumW debug normalizeMethod tokenize qTok
     useExternalScore qEmb recencyHalfLife now docs gDF batchSize).

Lemma process_batch_docs (batch : list Doc) : List.map s_it (process_here batch) = batch.
Proof.
  unfold process_batch. rewrite !List.map_map. cbn [out_of s_it pre_of it].
  apply map_id.
Qed.

(** A property of the scored items that every batch establishes holds of
    everything the loop returns. *)
Lemma batch_loop_Forall (Q : Scored -> Prop) :
  (forall batch, Forall (fun d => d ∈ docs) batch -> Forall Q (process_here batch)) ->
  forall fuel i results out,
    Forall Q results -> loop_here fuel i results = Some out -> Forall Q out.
Proof.
  intros HQ. induction fuel as [|fuel IH]; intros i results out Hr H; [discriminate |].
  cbn [batch_loop] in H.
  destruct (i <? Z.of_nat (length docs))%Z.
  - apply IH in H; [exact H |]. apply Forall_app. split; [exact Hr |].
    apply HQ. rewrite Forall_forall. intros d Hd. eapply slice_elem_of, Hd.
  - now injection H as <-.
Qed.

Lemma slice_take_drop {A} (l : list A) (i j : Z) :
  (0 <= i)%Z -> (i <= j)%Z ->
  slice l i j =
  take (Z.to_nat (Z.min j (Z.of_nat (length l))) - Z.to_nat (Z.min i (Z.of_nat (length l))))
       (drop (Z.to_nat (Z.min i (Z.of_nat (length l)))) l).
Proof.
  intros Hi Hj. unfold slice.
  destruct (i <? 0)%Z eqn:Ei; [apply Z.ltb_lt in Ei; lia |].
  destruct (j <? 0)%Z eqn:Ej; [apply Z.ltb_lt in Ej; lia |].
  f_equal. lia.
Qed.

(** With a positive batch size the batches are consecutive pieces of the
    candidate list: the loop returns the candidates in their input order,
    each scored once. *)
Lemma batch_loop_docs :
  (0 < batchSize)%Z ->
  forall fuel i results out,
    (0 <= i)%Z ->
    List.map s_it results = take (Z.to_nat (Z.min i (Z.of_nat (length docs)))) docs ->
    loop_here fuel i results = Some out ->
    List.map s_it out = docs.
Proof.
  intros Hb. induction fuel as [|fuel IH]; intros i results out Hi Hr H; [discriminate |].
  cbn [batch_loop] in H.
  destruct (i <? Z.of_nat (length docs))%Z eqn:E.
  - apply Z.ltb_lt in E. apply IH in H; [exact H | lia |].
    rewrite List.map_app, process_batch_docs, Hr, slice_take_drop by lia.
    rewrite take_take_drop. f_equal. lia.
  - apply Z.ltb_ge in E. injection H as <-. rewrite Hr. apply take_ge. lia.
Qed.

End LoopInvariants.

(** ** The batch loop and the ranking *)

(** X13: with a positive batch size the loop ends within [docs.length + 1]
    tests of its condition, and what it has pushed are the candidates in
    their input order, each once. *)
Theorem X13_candidates_scored_once_in_order
  (now : Z) (P : Param.t) (m : option ModelWeights) (q : string) (qEmb : list R)
  (docs : list Doc) (fuel : nat) :
  (0 < batchSize_of P)%Z -> (length docs < fuel)%nat ->
  exists results,
    scoring_loop now P m q qEmb docs fuel = Some results /\
    List.map s_it results = docs.
Proof.
  intros Hb Hf.
  destruct (scoring_loop_terminates now P m q qEmb docs fuel Hb Hf) as (results & H).
  exists results. split; [exact H |].
  unfold scoring_loop in H.
  eapply batch_loop_docs; [exact Hb | | | exact H]; [lia |].
  rewrite Z.min_l by lia. reflexivity.
Qed.

Lemma X13_candidates_scored_once_in_order_witness :
  (0 < batchSize_of debug_params)%Z /\ (length three_docs < 4)%nat /\
  exists results,
    scoring_loop 0 debug_params None "Machine Learning" [] three_docs 4 = Some results /\
    List.map s_it results = three_docs.
Proof.
  assert (Hb : (0 < batchSize_of debug_params)%Z) by reflexivity.
  assert (Hf : (length three_docs < 4)%nat) by (cbn; lia).
  split; [exact Hb |]. split; [exact Hf |].
  exact (X13_candidates_scored_once_in_order 0 debug_params None "Machine Learning" []
           three_docs 4 Hb Hf).
Defined.

(** X14: no parameter is range-checked: with a negative batch size an
    invocation that reaches the batch loop never returns, however many
    rounds it is given. *)
Theorem X14_negative_batchSize_never_returns
  (Number : string -> option R) (now : Z) (P : Param.t)
  (q : string) (qEmb : list R) (docs : list Doc) (rest : list (Item InputJson))
  (m : option ModelWeights) :
  (batchSize_of P < 0)%Z ->
  query_tokens P q <> [] -> docs <> [] -> model_for Number P = Some m ->
  forall fuel, execute Number now fuel P (valid_input q qEmb docs rest) = None.
Proof.
  intros Hb Hq Hd Hm fuel. eapply execute_diverges; eassumption.
Qed.

Lemma X14_negative_batchSize_never_returns_witness :
  (batchSize_of negative_batchSize < 0)%Z /\
  query_tokens negative_batchSize "Machine Learning" <> [] /\
  three_docs <> [] /\
  model_for Decimal.Number negative_batchSize = Some None /\
  forall fuel, execute Decimal.Number 0 fuel negative_batchSize learning_input = None.
Proof.
  assert (Hb : (batchSize_of negative_batchSize < 0)%Z) by reflexivity.
  assert (Hq : query_tokens negative_batchSize "Machine Learning" <> [])
    by (vm_compute; discriminate).
  assert (Hd : three_docs <> []) by discriminate.
  assert (Hm : model_for Decimal.Number negative_batchSize = Some None) by reflexivity.
  split; [exact Hb |]. split; [exact Hq |]. split; [exact Hd |]. split; [exact Hm |].
  exact (X14_negative_batchSize_never_returns Decimal.Number 0 negative_batchSize
           "Machine Learning" [] three_docs [] None Hb Hq Hd Hm).
Defined.

(** X15: when the query leaves no token, or there is no candidate, the
    invocation returns the empty list before the model weights are parsed
    and before the loop: whatever the other parameters are, and without a
    single round. *)
Theorem X15_nothing_to_rank
  (Number : string -> option R) (now : Z) (fuel : nat) (P : Param.t)
  (q : string) (qEmb : list R) (docs : list Doc) (rest : list (Item InputJson)) :
  query_tokens P q = [] \/ docs = [] ->
  execute Number now fuel P (valid_input q qEmb docs rest) = Some [].
Proof.
  intros [Hq | Hd]; unfold execute; rewrite execute_try_valid.
  - rewrite Hq. reflexivity.
  - rewrite Hd. cbn [length Nat.eqb]. now rewrite orb_true_r.
Qed.

Lemma X15_nothing_to_rank_witness :
  query_tokens two_weights "The AND the" = [] /\
  execute Decimal.Number 0 0 two_weights (valid_input "The AND the" [] three_docs [])
  = Some [].
Proof.
  assert (Hq : query_tokens two_weights "The AND the" = []) by (vm_compute; reflexivity).
  split; [exact Hq |].
  exact (X15_nothing_to_rank Decimal.Number 0 0 two_weights "The AND the" [] three_docs []
           (or_introl Hq)).
Defined.

(** What the second pass pushes for a batch: for each candidate of the
    batch, in order, the record built from its first-pass record and the
    normalizer of the batch. *)
Lemma process_batch_elem
  (useModel : bool) (modelWeights : option ModelWeights) (W : Weights) (sumW : R)
  (debug : bool) (normalizeMethod : string) (tokenize : string -> list string)
  (qTok : list string) (useExternalScore : bool) (qEmb : list R)
  (recencyHalfLife : R) (now : Z) (docs : list Doc) (gDF : gmap string nat)
  (batch : list Doc) (s : Scored) :
  let first_pass :=
    pre_of tokenize qTok useExternalScore qEmb recencyHalfLife now (length docs) gDF
      (avgLen tokenize batch) in
  s ∈ process_batch useModel modelWeights W sumW debug normalizeMethod tokenize qTok
        useExternalScore qEmb recencyHalfLife now docs gDF batch ->
  exists d,
    d ∈ batch /\
    first_pass d ∈ List.map first_pass batch /\
    s = out_of useModel modelWeights W sumW debug normalizeMethod
          (normBM25 normalizeMethod (List.map first_pass batch)) (first_pass d).
Proof.
  intros first_pass Hs. unfold process_batch in Hs. fold first_pass in Hs.
  apply list_elem_of_In, in_map_iff in Hs as (p & <- & Hp).
  pose proof Hp as Hp'. apply in_map_iff in Hp as (d & <- & Hd).
  exists d. split; [apply list_elem_of_In, Hd |].
  split; [apply list_elem_of_In, Hp' | reflexivity].
Qed.



Lemma Math_min_le_max (vals : list R) : Math_min vals <= Math_max vals.
Proof.
  destruct vals as [|a l]; [cbn; lra |].
  pose proof (Math_min_le (a :: l) a (list_elem_of_here a l)).
  pose proof (Math_max_ge (a :: l) a (list_elem_of_here a l)). lra.
Qed.

(** X17: both normalizers keep the order of the raw values: of two raw
    BM25 values the larger never gets the smaller normalized value. *)
Theorem X17_normalizers_preserve_order
  (normalizeMethod : string) (pre : list Pre) (v1 v2 : R) :
  v1 <= v2 ->
  normBM25 normalizeMethod pre v1 <= normBM25 normalizeMethod pre v2.
Proof.
  intros Hv.
  destruct (normBM25_cases normalizeMethod pre) as [[_ ->] | [_ ->]].
  - unfold norm_minmax.
    pose proof (Math_min_le_max (List.map bm25 pre)) as Hmm.
    destruct (Req_dec_T (Math_max (List.map bm25 pre)) (Math_min (List.map bm25 pre)));
      [lra |].
    set (lo := Math_min (List.map bm25 pre)) in *.
    set (w := Math_max (List.map bm25 pre) - lo).
    assert (Hw : 0 < w) by (unfold w; lra).
    apply Rmult_le_reg_r with (r := w); [exact Hw |].
    replace ((v1 - lo) / w * w) with (v1 - lo) by (field; lra).
    replace ((v2 - lo) / w * w) with (v2 - lo) by (field; lra). lra.
  - unfold norm_sigmoid.
    pose proof (exp_pos (- v1)) as H1. pose proof (exp_pos (- v2)) as H2.
    assert (He : exp (- v2) <= exp (- v1)) by (apply exp_monotone; lra).
    set (e1 := 1 + exp (- v1)) in *. set (e2 := 1 + exp (- v2)) in *.
    assert (He1 : 0 < e1) by (unfold e1; lra).
    assert (He2 : 0 < e2) by (unfold e2; lra).
    apply Rmult_le_reg_r with (r := e1 * e2); [now apply Rmult_lt_0_compat |].
    replace (1 / e1 * (e1 * e2)) with e2 by (field; lra).
    replace (1 / e2 * (e1 * e2)) with e1 by (field; lra).
    unfold e1, e2. lra.
Qed.

Lemma X17_normalizers_preserve_order_witness :
  0 <= 1 /\
  normBM25 "minmax" spread_batch 0 <= normBM25 "minmax" spread_batch 1 /\
  normBM25 "sigmoid" spread_batch 0 <= normBM25 "sigmoid" spread_batch 1.
Proof.
  assert (H : 0 <= 1) by lra.
  split; [exact H |]. split.
  - exact (X17_normalizers_preserve_order "minmax" spread_batch 0 1 H).
  - exact (X17_normalizers_preserve_order "sigmoid" spread_batch 0 1 H).
Defined.

(** X18: the ranking holds scored candidates only, and all of them, in
    some order, when [topN] is at least their number. *)
Theorem X18_ranking_selects_scored_items (P : Param.t) (results : list Scored) :
  (forall o, o ∈ ranking P results -> exists s, o = Reranked s /\ s ∈ results) /\
  ((Z.of_nat (length results) <= topN_of P)%Z ->
   Permutation (ranking P results) (List.map Reranked results)).
Proof.
  unfold ranking. split.
  - intros o Ho. apply list_elem_of_In, in_map_iff in Ho as (s & <- & Hs).
    exists s. split; [reflexivity |].
    apply list_elem_of_In, slice_elem_of in Hs.
    now rewrite (sort_perm rerank_score results) in Hs.
  - intros Hn.
    replace (topN_of P) with (0 + topN_of P)%Z by lia.
    rewrite slice_whole by (rewrite (sort_length rerank_score); exact Hn).
    apply Permutation_map, (sort_perm rerank_score).
Qed.

(** X19: a negative [topN] is not rejected: the ranking then drops that
    many items from the end of the sorted list, the lowest scores. *)
Theorem X19_negative_topN_drops_from_the_end (P : Param.t) (results : list Scored) :
  (topN_of P < 0)%Z ->
  ranking P results =
  List.map Reranked
    (take (length results - Z.to_nat (- topN_of P)) (sort compareFn results)).
Proof.
  intros Hn. unfold ranking. rewrite slice_from_0.
  destruct (topN_of P <? 0)%Z eqn:E; [| apply Z.ltb_ge in E; lia].
  f_equal. f_equal. rewrite (sort_length rerank_score). lia.
Qed.

Lemma X19_negative_topN_drops_from_the_end_witness :
  (topN_of negative_topN < 0)%Z /\
  ranking negative_topN two_scored =
  List.map Reranked
    (take (length two_scored - Z.to_nat (- topN_of negative_topN))
       (sort compareFn two_scored)).
Proof.
  assert (H : (topN_of negative_topN < 0)%Z) by reflexivity.
  split; [exact H |].
  exact (X19_negative_topN_drops_from_the_end negative_topN two_scored H).
Defined.

(** X20: the recency signal is not clamped: with a positive half-life a
    candidate stamped after the run gets a signal above 1. *)
Theorem X20_future_timestamp_exceeds_one
  (recencyHalfLife : R) (now : Z) (d : Doc) (t : Z) :
  0 < recencyHalfLife -> doc_time d = Some t -> (now < t)%Z ->
  1 < rec_of recencyHalfLife now d.
Proof.
  intros Hh Ht Hlt. unfold rec_of, days_of. rewrite Ht.
  apply IZR_lt in Hlt. rewrite <- exp_0. apply exp_increasing.
  apply Rmult_lt_reg_r with (r := recencyHalfLife); [exact Hh |].
  replace (- ((IZR now - IZR t) / 86400000) / recencyHalfLife * recencyHalfLife)
    with ((IZR t - IZR now) / 86400000) by (field; lra).
  rewrite Rmult_0_l. apply Rdiv_lt_0_compat; lra.
Qed.

Lemma X20_future_timestamp_exceeds_one_witness :
  0 < 60 /\ (0 < 86400000)%Z /\ 1 < rec_of 60 0 (doc_at "tomorrow" 86400000).
Proof.
  assert (Hh : 0 < 60) by lra.
  assert (Hlt : (0 < 86400000)%Z) by lia.
  split; [exact Hh |]. split; [exact Hlt |].
  exact (X20_future_timestamp_exceeds_one 60 0 (doc_at "tomorrow" 86400000) 86400000
           Hh eq_refl Hlt).
Defined.

(** ** The fused score *)

Lemma sem_of_range (qEmb : list R) (d : Doc) : -1 <= sem_of false qEmb d <= 1.
Proof.
  unfold sem_of. destruct (doc_embedding d) as [e|]; [| lra].
  destruct (negb (length qEmb =? 0)%nat && negb (length e =? 0)%nat); [| lra].
  apply cos_range.
Qed.

Lemma exact_of_range (qTok : list string) (dSet : gset string) :
  qTok <> [] -> 0 <= exact_of qTok dSet <= 1.
Proof.
  intros Hne. unfold exact_of.
  set (f := fun t => bool_decide (t ∈ dSet)).
  pose proof (filter_length_le f qTok) as Hle. apply le_INR in Hle.
  assert (HL : 0 < INR (length qTok)).
  { apply lt_0_INR. destruct qTok; [congruence | cbn; lia]. }
  pose proof (pos_INR (length (List.filter f qTok))) as Hn.
  set (n := INR (length (List.filter f qTok))) in *.
  set (L := INR (length qTok)) in *.
  assert (Hdiv : n / L * L = n) by (field; lra).
  split.
  - apply Rmult_le_pos; [exact Hn |]. left. now apply Rinv_0_lt_compat.
  - apply Rmult_le_reg_r with (r := L); [exact HL |]. rewrite Hdiv. lra.
Qed.

Lemma rec_of_range (recencyHalfLife : R) (now : Z) (d : Doc) :
  0 < recencyHalfLife ->
  (forall t, doc_time d = Some t -> (t <= now)%Z) ->
  0 < rec_of recencyHalfLife now d <= 1.
Proof.
  intros Hh Ht. unfold rec_of. split; [apply exp_pos |].
  rewrite <- exp_0. apply exp_monotone.
  replace 0 with (- 0 / recencyHalfLife) by (field; lra).
  apply neg_div_monotone; [exact Hh |].
  unfold days_of. destruct (doc_time d) as [t|]; [| lra].
  specialize (Ht t eq_refl). apply IZR_le in Ht.
  apply Rmult_le_pos; lra.
Qed.

Lemma normBM25_member_range (normalizeMethod : string) (pre : list Pre) (p : Pre) :
  p ∈ pre -> 0 <= normBM25 normalizeMethod pre (bm25 p) <= 1.
Proof.
  intros Hp.
  destruct (normBM25_cases normalizeMethod pre) as [[_ ->] | [_ ->]].
  - apply norm_minmax_range, list_elem_of_In, in_map, list_elem_of_In, Hp.
  - pose proof (norm_sigmoid_range (bm25 p)). lra.
Qed.

(** X21: in the weighted mode, with cosine similarity, weights that are not
    negative, a positive half-life and no candidate stamped after the run,
    every [rerank_score] lies between [-W.sem] and the sum of the four
    weights (the query tokens being free of "constructor"). *)
Theorem X21_weighted_score_bounds
  (now : Z) (P : Param.t) (m : option ModelWeights) (q : string) (qEmb : list R)
  (docs : list Doc) (fuel : nat) (results : list Scored) :
  no_inherited_key (query_tokens P q) -> query_tokens P q <> [] ->
  Param.useModel P = false -> Param.useExternalScore P = false ->
  0 < recencyHalfLife_of P ->
  Forall (fun d => forall t, doc_time d = Some t -> (t <= now)%Z) docs ->
  0 <= W_sem (weights_of P) /\ 0 <= W_lex (weights_of P) /\
  0 <= W_exact (weights_of P) /\ 0 <= W_time (weights_of P) ->
  scoring_loop now P m q qEmb docs fuel = Some results ->
  Forall (fun s => - W_sem (weights_of P) <= rerank_score s <= sumW_of (weights_of P))
    results.
Proof.
  intros _ Hq Hu He Hh Ht (Hs & Hl & Hx & Hr) H.
  unfold scoring_loop in H. rewrite Hu, He in H.
  eapply batch_loop_Forall; [| constructor | exact H].
  intros batch Hb. rewrite Forall_forall. intros s Hin.
  apply process_batch_elem in Hin as (d & Hd & Hp & ->).
  pose proof (normBM25_member_range (normalizeMethod_of P) _ _ Hp) as Hn.
  cbn [out_of rerank_score]. unfold final_of. cbn [pre_of sem exact_ rec].
  set (n := normBM25 _ _ _) in *.
  pose proof (sem_of_range qEmb d) as Hsem.
  pose proof (exact_of_range (query_tokens P q)
                (list_to_set (tokenizer_of P (doc_chunk d))) Hq) as Hex.
  assert (Hrec : 0 < rec_of (recencyHalfLife_of P) now d <= 1).
  { apply rec_of_range; [exact Hh |].
    rewrite Forall_forall in Ht, Hb. apply Ht, Hb, Hd. }
  set (a := sem_of false qEmb d) in *.
  set (e := exact_of _ _) in *.
  set (r := rec_of _ _ _) in *.
  unfold sumW_of.
  set (ws := W_sem (weights_of P)) in *. set (wl := W_lex (weights_of P)) in *.
  set (wx := W_exact (weights_of P)) in *. set (wt := W_time (weights_of P)) in *.
  assert (0 <= (a + 1) * ws) by (apply Rmult_le_pos; lra).
  assert (0 <= (1 - a) * ws) by (apply Rmult_le_pos; lra).
  assert (0 <= n * wl) by (apply Rmult_le_pos; lra).
  assert (0 <= (1 - n) * wl) by (apply Rmult_le_pos; lra).
  assert (0 <= e * wx) by (apply Rmult_le_pos; lra).
  assert (0 <= (1 - e) * wx) by (apply Rmult_le_pos; lra).
  assert (0 <= r * wt) by (apply Rmult_le_pos; lra).
  assert (0 <= (1 - r) * wt) by (apply Rmult_le_pos; lra).
  lra.
Qed.

Lemma X21_weighted_score_bounds_witness :
  let P := default_params in
  no_inherited_key (query_tokens P "Machine Learning") /\
  query_tokens P "Machine Learning" <> [] /\
  0 < recencyHalfLife_of P /\
  (0 <= W_sem (weights_of P) /\ 0 <= W_lex (weights_of P) /\
   0 <= W_exact (weights_of P) /\ 0 <= W_time (weights_of P)) /\
  exists results,
    scoring_loop 0 P None "Machine Learning" [] three_docs 4 = Some results /\
    Forall (fun s => - W_sem (weights_of P) <= rerank_score s <= sumW_of (weights_of P))
      results.
Proof.
  intros P.
  assert (Hk : no_inherited_key (query_tokens P "Machine Learning")).
  { apply (bool_decide_unpack _). vm_compute. exact I. }
  assert (Hq : query_tokens P "Machine Learning" <> []) by (vm_compute; discriminate).
  assert (Hh : 0 < recencyHalfLife_of P).
  { unfold recencyHalfLife_of, P. cbn. rewrite or_default_nonzero; lra. }
  assert (Hw : 0 <= W_sem (weights_of P) /\ 0 <= W_lex (weights_of P) /\
               0 <= W_exact (weights_of P) /\ 0 <= W_time (weights_of P)).
  { unfold weights_of, P. cbn. rewrite !or_default_nonzero; lra. }
  assert (Ht : Forall (fun d => forall t, doc_time d = Some t -> (t <= 0)%Z) three_docs).
  { repeat constructor; intros t E; discriminate E. }
  split; [exact Hk |]. split; [exact Hq |]. split; [exact Hh |]. split; [exact Hw |].
  destruct (scoring_loop_terminates 0 P None "Machine Learning" [] three_docs 4)
    as (results & H); [reflexivity | cbn; lia |].
  exists results. split; [exact H |].
  exact (X21_weighted_score_bounds 0 P None "Machine Learning" [] three_docs 4 results
           Hk Hq eq_refl eq_refl Hh Ht Hw H).
Defined.

(** X22: the score breakdown is attached on request only: without [debug]
    no output item carries it, and with [debug] every output item carries
    the raw BM25 it also reports as [bm25_raw], the normalization method and
    the weights and their sum of the invocation. *)
Theorem X22_debug_only_on_request
  (now : Z) (P : Param.t) (m : option ModelWeights) (q : string) (qEmb : list R)
  (docs : list Doc) (fuel : nat) (results : list Scored) :
  scoring_loop now P m q qEmb docs fuel = Some results ->
  Forall (fun s =>
            match s_debug s with
            | None => Param.debug P = false
            | Some dbg =>
                Param.debug P = true /\
                d_bm25 dbg = bm25_raw s /\
                bm25n_method dbg = normalizeMethod_of P /\
                weights dbg = weights_of P /\
                weights_sum dbg = sumW_of (weights_of P)
            end) results.
Proof.
  intros H. unfold scoring_loop in H.
  eapply batch_loop_Forall; [| constructor | exact H].
  intros batch _. rewrite Forall_forall. intros s Hin.
  apply process_batch_elem in Hin as (d & _ & _ & ->).
  cbn [out_of s_debug bm25_raw].
  destruct (Param.debug P); [| reflexivity].
  cbn. repeat split; reflexivity.
Qed.

Lemma X22_debug_only_on_request_witness :
  exists results,
    scoring_loop 0 debug_params None "Machine Learning" [] three_docs 4 = Some results /\
    Forall (fun s =>
              match s_debug s with
              | None => Param.debug debug_params = false
              | Some dbg =>
                  Param.debug debug_params = true /\
                  d_bm25 dbg = bm25_raw s /\
                  bm25n_method dbg = normalizeMethod_of debug_params /\
                  weights dbg = weights_of debug_params /\
                  weights_sum dbg = sumW_of (weights_of debug_params)
              end) results.
Proof.
  destruct (scoring_loop_terminates 0 debug_params None "Machine Learning" [] three_docs 4)
    as (results & H); [reflexivity | cbn; lia |].
  exists results. split; [exact H |].
  exact (X22_debug_only_on_request 0 debug_params None "Machine Learning" [] three_docs 4
           results H).
Defined.
